(** * Gene panel versioning of scout: a shallow embedding

    The development follows two source files:
    - [scout/adapter/mongo/panel.py]: the [PanelHandler] methods
      [add_pending], [update_panel], [apply_pending], [clinical_symbols];
    - [scout/parse/panel.py]: [parse_gene] and [parse_genes].

    Python dictionaries with string keys are finite maps, the gene records
    that [apply_pending] reads and writes live in a heap of objects so that
    two lists holding the same record alias each other, and the Mongo
    collection is a finite map from document identifiers to documents. *)

From Stdlib Require Import ZArith PrimFloat Ascii String.
From stdpp Require Import gmap strings list fin_maps pretty.

Local Open Scope Z_scope.
Local Open Scope string_scope.
Local Open Scope list_scope.

(** ** Python values *)

(** The values that occur in gene records, as listed in the docstring of
    [parse_gene]: [None], booleans, integers, strings and lists of strings. *)
Inductive value :=
  | VNone
  | VBool (b : bool)
  | VInt (n : Z)
  | VStr (s : string)
  | VStrs (l : list string).

#[global] Instance value_eq_dec : EqDecision value.
Proof. solve_decision. Defined.

(** Python's truth value, the test behind [if x:] and [x or y]. *)
Definition truthy (v : value) : bool :=
  match v with
  | VNone => false
  | VBool b => b
  | VInt n => negb (n =? 0)%Z
  | VStr s => negb (String.eqb s "")
  | VStrs l => match l with [] => false | _ => true end
  end.

(** Elements of a [set] and keys of a [dict] are compared by hash and [==]:
    [True] and [1] are one key, a list cannot be hashed. *)
Inductive pykey :=
  | KNone
  | KInt (n : Z)
  | KStr (s : string).

#[global] Instance pykey_eq_dec : EqDecision pykey.
Proof. solve_decision. Defined.

#[global] Instance pykey_countable : Countable pykey.
Proof.
  refine (inj_countable'
    (λ k, match k with
          | KNone => inl ()
          | KInt n => inr (inl n)
          | KStr s => inr (inr s)
          end)
    (λ x, match x with
          | inl _ => KNone
          | inr (inl n) => KInt n
          | inr (inr s) => KStr s
          end) _).
  by intros [].
Defined.

(** [hash(v)]: [None] stands for [TypeError: unhashable type]. *)
Definition py_key (v : value) : option pykey :=
  match v with
  | VNone => Some KNone
  | VBool b => Some (KInt (Z.b2z b))
  | VInt n => Some (KInt n)
  | VStr s => Some (KStr s)
  | VStrs _ => None
  end.

(** A Python [dict] with string keys. *)
Abbreviation dict := (gmap string value).

(** Numbers as stored in the [version] field: a Python [int] or a [float]
    (binary64), the latter being what [parse_gene_panel] writes. *)
Inductive pynum :=
  | PyInt (n : Z)
  | PyFloat (x : float).

(** [v + 1] *)
Definition py_add_one (v : pynum) : pynum :=
  match v with
  | PyInt n => PyInt (n + 1)
  | PyFloat x => PyFloat (PrimFloat.add x 1%float)
  end.

(** ** Exceptions and outcomes *)

Inductive exn :=
  | KeyError (key : string)
  | TypeError
  | ValueError (msg : string)
  | SyntaxError (msg : string)
  | DuplicateKeyError
  | NoSuchObject.  (* a reference outside the heap; Python has none *)

#[global] Instance exn_eq_dec : EqDecision exn.
Proof. solve_decision. Defined.

Inductive outcome (A : Type) :=
  | Returns (a : A)
  | Raises (e : exn).
Arguments Returns {A} a.
Arguments Raises {A} e.

#[global] Instance outcome_eq_dec `{EqDecision A} : EqDecision (outcome A).
Proof. solve_decision. Defined.

(** ** Documents *)

Abbreviation ObjectId := positive.
Abbreviation datetime := Z.
Abbreviation loc := nat.

(** One entry of [panel.pending], with the four keys [add_pending] writes. *)
Record pending_change := {
  hgnc_id : Z;
  action : string;
  info : dict;
  symbol : string
}.

(** A panel document.  [G] is what the [genes] list holds: heap references
    for a panel held by the Python process, gene records themselves for a
    document at rest in the collection.  Keys other than the ones the
    handler reads or writes are kept in [meta]. *)
Record panel (G : Type) := {
  _id : option ObjectId;
  version : pynum;
  date : datetime;
  genes : list G;
  pending : option (list pending_change);
  is_archived : option bool;
  meta : dict
}.
Arguments _id {G} p.
Arguments version {G} p.
Arguments date {G} p.
Arguments genes {G} p.
Arguments pending {G} p.
Arguments is_archived {G} p.
Arguments meta {G} p.

Definition set_id {G} (i : option ObjectId) (p : panel G) : panel G :=
  {| _id := i; version := version p; date := date p; genes := genes p;
     pending := pending p; is_archived := is_archived p; meta := meta p |}.
Definition set_version {G} (v : pynum) (p : panel G) : panel G :=
  {| _id := _id p; version := v; date := date p; genes := genes p;
     pending := pending p; is_archived := is_archived p; meta := meta p |}.
Definition set_date {G} (d : datetime) (p : panel G) : panel G :=
  {| _id := _id p; version := version p; date := d; genes := genes p;
     pending := pending p; is_archived := is_archived p; meta := meta p |}.
Definition set_genes {G H} (gs : list H) (p : panel G) : panel H :=
  {| _id := _id p; version := version p; date := date p; genes := gs;
     pending := pending p; is_archived := is_archived p; meta := meta p |}.
Definition set_pending {G} (q : option (list pending_change)) (p : panel G)
  : panel G :=
  {| _id := _id p; version := version p; date := date p; genes := genes p;
     pending := q; is_archived := is_archived p; meta := meta p |}.
Definition set_is_archived {G} (a : option bool) (p : panel G) : panel G :=
  {| _id := _id p; version := version p; date := date p; genes := genes p;
     pending := pending p; is_archived := a; meta := meta p |}.

(** ** The world: heap of gene records and the panel collection *)

Record world := {
  heap : list dict;
  panel_collection : gmap ObjectId (panel dict)
}.

Definition with_heap (h : list dict) (w : world) : world :=
  {| heap := h; panel_collection := panel_collection w |}.
Definition with_collection (c : gmap ObjectId (panel dict)) (w : world)
  : world :=
  {| heap := heap w; panel_collection := c |}.

(** A new object is placed at the end of the heap. *)
Definition alloc (g : dict) (h : list dict) : loc * list dict :=
  (length h, h ++ [g]).

(** The records a list of references denotes. *)
Definition deref (h : list dict) (ls : list loc) : option (list dict) :=
  mapM (λ l : loc, h !! l) ls.

(** What the driver serialises when it is handed a panel. *)
Definition to_document (h : list dict) (p : panel loc)
  : option (panel dict) :=
  gs ← deref h (genes p); Some (set_genes gs p).

(** What the driver builds when it hands a stored document to Python: every
    gene record becomes a new object. *)
Definition of_document (doc : panel dict) (h : list dict)
  : panel loc * list dict :=
  (set_genes (seq (length h) (length (genes doc))) doc, h ++ genes doc).

(** Computations that read and write the world and may raise. *)
Definition M (A : Type) : Type := world → outcome A * world.

Definition ret {A} (a : A) : M A := λ w, (Returns a, w).
Definition raise {A} (e : exn) : M A := λ w, (Raises e, w).
Definition bind {A B} (m : M A) (k : A → M B) : M B :=
  λ w, match m w with
       | (Returns a, w') => k a w'
       | (Raises e, w') => (Raises e, w')
       end.

#[global] Instance M_ret : MRet M := @ret.
#[global] Instance M_bind : MBind M := λ A B k m, bind m k.

(** A step that only touches the heap. *)
Definition on_heap {A} (f : list dict → outcome A * list dict) : M A :=
  λ w, let '(r, h) := f (heap w) in (r, with_heap h w).

(** ** The driver operations the handler calls *)

(** [collection.insert_one(p)]: a document without [_id] is given a new
    one, which is also written into the Python object. *)
Definition insert_one (p : panel loc) : M (panel loc) := λ w,
  match to_document (heap w) p with
  | None => (Raises NoSuchObject, w)
  | Some doc =>
    match _id p with
    | Some i =>
      match panel_collection w !! i with
      | Some _ => (Raises DuplicateKeyError, w)
      | None =>
        (Returns p, with_collection (<[i := doc]> (panel_collection w)) w)
      end
    | None =>
      let i := fresh (dom (panel_collection w)) in
      (Returns (set_id (Some i) p),
       with_collection
         (<[i := set_id (Some i) doc]> (panel_collection w)) w)
    end
  end.

(** [collection.find_one_and_replace({'_id': i}, p,
    return_document=ReturnDocument.AFTER)] *)
Definition find_one_and_replace (i : ObjectId) (p : panel loc)
  : M (option (panel dict)) := λ w,
  match to_document (heap w) p with
  | None => (Raises NoSuchObject, w)
  | Some doc =>
    match panel_collection w !! i with
    | None => (Returns None, w)
    | Some _ =>
      (Returns (Some doc),
       with_collection (<[i := doc]> (panel_collection w)) w)
    end
  end.

(** [collection.find_one_and_update({'_id': i},
    {'$push': {'pending': pending_action}},
    return_document=ReturnDocument.AFTER)]: [$push] creates the array when
    the field is absent. *)
Definition find_one_and_push_pending (i : ObjectId)
  (pending_action : pending_change) : M (option (panel dict)) := λ w,
  match panel_collection w !! i with
  | None => (Returns None, w)
  | Some doc =>
    let doc' :=
      set_pending (Some (default [] (pending doc) ++ [pending_action])) doc in
    (Returns (Some doc'),
     with_collection (<[i := doc']> (panel_collection w)) w)
  end.

(** ** [PanelHandler.update_panel]

    The argument is changed in place ([panel_obj['date'] = ...]); the
    object as the caller sees it afterwards is returned next to the method's
    own result. *)
Definition update_panel (now : datetime) (panel_obj : panel loc)
  : M (panel loc * option (panel dict)) :=
  let panel_obj := set_date now panel_obj in
  match _id panel_obj with
  | None => raise (KeyError "_id")
  | Some i =>
    updated_panel ← find_one_and_replace i panel_obj;
    ret (panel_obj, updated_panel)
  end.

(** ** [PanelHandler.add_pending] *)

Module Hgnc.
  (** The two keys [add_pending] reads from [hgnc_gene]. *)
Record gene := {
  hgnc_id : Z;
  hgnc_symbol : string
}.
End Hgnc.

Definition valid_actions : list string := ["add"; "delete"; "edit"].

Definition add_pending (panel_obj : panel loc) (hgnc_gene : Hgnc.gene)
  (action : string) (info : option dict) : M (option (panel dict)) :=
  if negb (bool_decide (action ∈ valid_actions)) then
    raise (ValueError ("Invalid action " +:+ action))
  else
    (* info = info or {} *)
    let info := match info with
                | Some d => if bool_decide (d = ∅) then ∅ else d
                | None => ∅
                end in
    let pending_action :=
      {| hgnc_id := Hgnc.hgnc_id hgnc_gene;
         action := action;
         info := info;
         symbol := Hgnc.hgnc_symbol hgnc_gene |} in
    match _id panel_obj with
    | None => raise (KeyError "_id")
    | Some i => find_one_and_push_pending i pending_action
    end.

(** ** [PanelHandler.apply_pending] *)

(** [copy.deepcopy(panel_obj)]: the copy has gene records of its own.
    (Both loops below read [panel_obj], and line 303 rebinds
    [new_panel['genes']], so these copies are never read.) *)
Definition deepcopy (p : panel loc) : M (panel loc) := λ w,
  match deref (heap w) (genes p) with
  | None => (Raises NoSuchObject, w)
  | Some gs =>
    (Returns (set_genes (seq (length (heap w)) (length gs)) p),
     with_heap (heap w ++ gs) w)
  end.

(** [if info.get(k): gene[k] = info[k]] *)
Definition copy_field (info : dict) (k : string) (gene : dict) : dict :=
  match info !! k with
  | Some v => if truthy v then <[k := v]> gene else gene
  | None => gene
  end.

(** The five [if info.get(...)] statements of lines 262-271, which lines
    289-298 repeat. *)
Definition copy_fields (info : dict) (gene : dict) : dict :=
  copy_field info "database_entry_version"
    (copy_field info "mosaicism"
      (copy_field info "reduced_penetrance"
        (copy_field info "inheritance_models"
          (copy_field info "disease_associated_transcripts" gene)))).

(** Lines 258-271: the gene object of an [add] entry. *)
Definition new_gene_obj (update : pending_change) : dict :=
  copy_fields (info update)
    (<["symbol" := VStr (symbol update)]>
      (<["hgnc_id" := VInt (hgnc_id update)]> ∅)).

(** Lines 252-275: the loop over [panel_obj.get('pending', [])]. *)
Fixpoint scan_pending (pend : list pending_change) (new_genes : list loc)
  (updates : gmap Z pending_change) (h : list dict)
  : list loc * gmap Z pending_change * list dict :=
  match pend with
  | [] => (new_genes, updates, h)
  | update :: pend =>
    if String.eqb (action update) "add" then
      let '(l, h) := alloc (new_gene_obj update) h in
      scan_pending pend (new_genes ++ [l]) updates h
    else
      scan_pending pend new_genes (<[hgnc_id update := update]> updates) h
  end.

(** [hgnc_id in updates] and [updates[hgnc_id]], for the value found in a
    gene record; the keys of [updates] are integers. *)
Definition find_update (updates : gmap Z pending_change) (v : value)
  : outcome (option pending_change) :=
  match py_key v with
  | None => Raises TypeError
  | Some (KInt n) => Returns (updates !! n)
  | Some _ => Returns None
  end.

(** Lines 277-301: the loop over [panel_obj['genes']].  An edited record is
    written where it lives. *)
Fixpoint merge_genes (updates : gmap Z pending_change) (gs : list loc)
  (new_genes : list loc) (h : list dict) : outcome (list loc) * list dict :=
  match gs with
  | [] => (Returns new_genes, h)
  | l :: gs =>
    match h !! l with
    | None => (Raises NoSuchObject, h)
    | Some gene =>
      match gene !! "hgnc_id" with
      | None => (Raises (KeyError "hgnc_id"), h)
      | Some v =>
        match find_update updates v with
        | Raises e => (Raises e, h)
        | Returns (Some current_update) =>
          if String.eqb (action current_update) "delete" then
            merge_genes updates gs new_genes h
          else if String.eqb (action current_update) "edit" then
            let h := <[l := copy_fields (info current_update) gene]> h in
            merge_genes updates gs (new_genes ++ [l]) h
          else
            merge_genes updates gs new_genes h
        | Returns None =>
          merge_genes updates gs (new_genes ++ [l]) h
        end
      end
    end
  end.

(** The method.  [now_merge] and [now_archive] are the two readings of
    [dt.datetime.now()] (line 248 and [update_panel]).  It returns
    [new_panel] together with [panel_obj] as the caller sees it afterwards:
    line 309 and [update_panel] write into the argument. *)
Definition apply_pending (now_merge now_archive : datetime)
  (panel_obj : panel loc) : M (panel loc * panel loc) :=
  new_panel ← deepcopy panel_obj;
  match _id new_panel with
  | None => raise (KeyError "_id")
  | Some _ =>
    let new_panel := set_id None new_panel in
    let new_panel := set_pending (Some []) new_panel in
    let new_panel := set_date now_merge new_panel in
    '(new_genes, updates) ←
      on_heap (λ h,
        let '(new_genes, updates, h) :=
          scan_pending (default [] (pending panel_obj)) [] ∅ h in
        (Returns (new_genes, updates), h));
    new_genes ← on_heap (merge_genes updates (genes panel_obj) new_genes);
    let new_panel := set_genes new_genes new_panel in
    let new_panel := set_version (py_add_one (version panel_obj)) new_panel in
    new_panel ← insert_one new_panel;
    let panel_obj := set_is_archived (Some true) panel_obj in
    '(panel_obj, _) ← update_panel now_archive panel_obj;
    ret (new_panel, panel_obj)
  end.

(** ** [PanelHandler.clinical_symbols]

    [case_panels] is the list [panel['panel_id'] for panel in
    case_obj['panels']]. *)

(** [{'$group': {'_id': '$genes.symbol'}}]: a record without the field
    falls into the [null] group. *)
Definition group_id (gene : dict) : value :=
  default VNone (gene !! "symbol").

(** The [_id]s of the aggregation: [$match] selects the documents named in
    [case_panels], [$unwind] yields one item per gene, [$group] one item
    per value of [symbol]. *)
Definition symbol_groups (c : gmap ObjectId (panel dict))
  (case_panels : list ObjectId) : list value :=
  doc ← omap (λ i, c !! i) case_panels; group_id <$> genes doc.

Definition clinical_symbols (case_panels : list ObjectId)
  : M (gset pykey) := λ w,
  match mapM py_key (symbol_groups (panel_collection w) case_panels) with
  | None => (Raises TypeError, w)
  | Some ks => (Returns (list_to_set ks), w)
  end.

(** ** What a run of [apply_pending] computes, record by record

    These functions describe the result on gene records rather than on
    references; the theorems below relate them to the loops above. *)

Definition optional_fields : list string :=
  ["disease_associated_transcripts"; "inheritance_models";
   "reduced_penetrance"; "mosaicism"; "database_entry_version"].

(** [info.get(k)] is true in Python's sense. *)
Definition applies (info : dict) (k : string) : bool :=
  match info !! k with
  | Some v => truthy v
  | None => false
  end.

(** The gene records of the [add] entries, in queue order. *)
Definition added_genes (pend : list pending_change) : list dict :=
  new_gene_obj <$> filter (λ u, action u = "add") pend.

(** The [updates] dictionary after the first loop. *)
Definition index_update (m : gmap Z pending_change) (u : pending_change)
  : gmap Z pending_change :=
  if decide (action u = "add") then m else <[hgnc_id u := u]> m.

Definition pending_updates (pend : list pending_change)
  : gmap Z pending_change :=
  foldl index_update ∅ pend.

(** The record has a [hgnc_id] that can be looked up in a dictionary. *)
Definition hashable_id (gene : dict) : Prop :=
  is_Some (gene !! "hgnc_id" ≫= py_key).

(** What becomes of one record of the base list: [None] when it is left
    out, otherwise the record carried forward. *)
Definition carried_gene (updates : gmap Z pending_change) (gene : dict)
  : option dict :=
  match gene !! "hgnc_id" ≫= py_key with
  | Some (KInt n) =>
    match updates !! n with
    | Some u =>
      if decide (action u = "edit") then Some (copy_fields (info u) gene)
      else None
    | None => Some gene
    end
  | _ => Some gene
  end.

(** The record found afterwards where a base record was. *)
Definition touched (updates : gmap Z pending_change) (gene : dict) : dict :=
  default gene (carried_gene updates gene).

(** The heap after the second loop has gone through the references [gs]. *)
Definition merged_heap (updates : gmap Z pending_change) (gs : list loc)
  (h : list dict) : list dict :=
  imap (λ l gene, if bool_decide (l ∈ gs) then touched updates gene else gene)
    h.

(** The references the second loop appends. *)
Definition kept (updates : gmap Z pending_change) (h : list dict)
  (gs : list loc) : list loc :=
  filter (λ l, is_Some (h !! l ≫= carried_gene updates)) gs.

(** The queue [apply_pending] reads: [panel_obj.get('pending', [])]. *)
Definition pending_queue {G} (p : panel G) : list pending_change :=
  default [] (pending p).

(** The gene records of the new version, given those of the base. *)
Definition merged_genes (pend : list pending_change) (base : list dict)
  : list dict :=
  added_genes pend ++ omap (carried_gene (pending_updates pend)) base.

(** The document inserted for the new version. *)
Definition new_version_doc (now_merge : datetime) (p : panel loc)
  (base : list dict) (j : ObjectId) : panel dict :=
  {| _id := Some j;
     version := py_add_one (version p);
     date := now_merge;
     genes := merged_genes (pending_queue p) base;
     pending := Some [];
     is_archived := is_archived p;
     meta := meta p |}.

(** The document written back for the base version. *)
Definition archived_doc (now_archive : datetime) (p : panel loc)
  (base : list dict) : panel dict :=
  {| _id := _id p;
     version := version p;
     date := now_archive;
     genes := touched (pending_updates (pending_queue p)) <$> base;
     pending := pending p;
     is_archived := Some true;
     meta := meta p |}.

(** The collection after [insert_one] and [update_panel]. *)
Definition merged_collection (now_merge now_archive : datetime)
  (p : panel loc) (base : list dict) (i : ObjectId)
  (c : gmap ObjectId (panel dict)) : gmap ObjectId (panel dict) :=
  let j := fresh (dom c) in
  let c := <[j := new_version_doc now_merge p base j]> c in
  match c !! i with
  | Some _ => <[i := archived_doc now_archive p base]> c
  | None => c
  end.

(** The gene list as the specification words it (section 4.3, step 4):
    the carried records first, the added ones after them. *)
Definition appended_genes (pend : list pending_change) (base : list dict)
  : list dict :=
  omap (carried_gene (pending_updates pend)) base ++ added_genes pend.

(** What a run leaves of the new version: the returned panel (or the
    exception) and the heap its references point into. *)
Definition new_version_of (r : outcome (panel loc * panel loc) * world)
  : outcome (panel loc) * list dict :=
  (match r.1 with
   | Returns (new_panel, _) => Returns new_panel
   | Raises e => Raises e
   end, heap r.2).

(** The reference holds a record whose [hgnc_id] can be looked up. *)
Definition gene_ok (h : list dict) (l : loc) : Prop :=
  ∃ gene, h !! l = Some gene ∧ hashable_id gene.

(** ** Sample panels

    The base panel of the scenarios in section 8 of the specification, as
    the parser and the handler would have stored it. *)
Module Sample.

Definition gene_A : dict :=
  {[ "hgnc_id" := VInt 1; "hgnc_symbol" := VStr "A" ]}.
Definition gene_B : dict :=
  {[ "hgnc_id" := VInt 2; "hgnc_symbol" := VStr "B" ]}.
Definition gene_C : dict :=
  {[ "hgnc_id" := VInt 3; "symbol" := VStr "C" ]}.

Definition edit_A : pending_change :=
  {| hgnc_id := 1; action := "edit";
     info := {[ "mosaicism" := VBool true ]}; symbol := "A" |}.
Definition add_C : pending_change :=
  {| hgnc_id := 3; action := "add"; info := ∅; symbol := "C" |}.
Definition delete_B : pending_change :=
  {| hgnc_id := 2; action := "delete"; info := ∅; symbol := "B" |}.
Definition add_A : pending_change :=
  {| hgnc_id := 1; action := "add"; info := ∅; symbol := "A" |}.
Definition delete_A : pending_change :=
  {| hgnc_id := 1; action := "delete"; info := ∅; symbol := "A" |}.

(** A gene flagged for mosaicism, and an edit that proposes to clear the
    flag. *)
Definition gene_M : dict :=
  {[ "hgnc_id" := VInt 1; "hgnc_symbol" := VStr "A";
     "mosaicism" := VBool true ]}.
Definition edit_M : pending_change :=
  {| hgnc_id := 1; action := "edit";
     info := {[ "mosaicism" := VBool false ]}; symbol := "A" |}.

Definition stored (gs : list dict) (q : list pending_change) : panel dict :=
  {| _id := Some 1%positive; version := PyFloat 1%float; date := 0;
     genes := gs; pending := Some q; is_archived := None; meta := ∅ |}.

(** The collection holds the panel, and Python holds it as [panel_obj]. *)
Definition panel_obj (gs : list dict) (q : list pending_change) : panel loc :=
  (of_document (stored gs q) []).1.
Definition start (gs : list dict) (q : list pending_change) : world :=
  {| heap := (of_document (stored gs q) []).2;
     panel_collection := {[ 1%positive := stored gs q ]} |}.

End Sample.

(** ** The two statements the code departs from *)

(** Claim C1 at one input: the new version lists the
    carried records first and the added ones last. *)
Definition added_genes_appended_at (now_merge now_archive : datetime)
  (p : panel loc) (w : world) : Prop :=
  ∀ new_panel p' w' base,
    apply_pending now_merge now_archive p w = (Returns (new_panel, p'), w') →
    deref (heap w) (genes p) = Some base →
    deref (heap w') (genes new_panel)
      = Some (appended_genes (pending_queue p) base).

(** Claim C4 at one input: a field that is a key of the
    entry's [info] is found, with the value given there, in the records of
    the new version that bear the entry's [hgnc_id]. *)
Definition present_fields_applied_at (now_merge now_archive : datetime)
  (p : panel loc) (w : world) : Prop :=
  ∀ new_panel p' w' result u k v,
    apply_pending now_merge now_archive p w = (Returns (new_panel, p'), w') →
    deref (heap w') (genes new_panel) = Some result →
    u ∈ pending_queue p →
    action u = "add" ∨ action u = "edit" →
    k ∈ optional_fields →
    info u !! k = Some v →
    ∀ gene, gene ∈ result →
      gene !! "hgnc_id" = Some (VInt (hgnc_id u)) → gene !! k = Some v.


(** * [scout/parse/panel.py] *)

(** ** Strings

    Lines and fields are Python [str] values.  The methods whose result
    depends on the character class tables of the interpreter are kept as an
    interface; the others are defined on the characters. *)
Class PyStr := {
  py_int : string → option Z;        (* [int(s)]; [None] is [ValueError] *)
  py_strip : string → string;        (* [s.strip()] *)
  py_rstrip : string → string;       (* [s.rstrip()] *)
  py_lower : string → string;        (* [s.lower()] *)
  py_isdigit : string → bool         (* [s.isdigit()] *)
}.

(** [s.split(sep)] for a separator of one character. *)
Fixpoint split_on (sep : ascii) (s : string) : list string :=
  match s with
  | EmptyString => [EmptyString]
  | String c s =>
    if Ascii.eqb c sep then EmptyString :: split_on sep s
    else match split_on sep s with
         | word :: words => String c word :: words
         | [] => [String c EmptyString]
         end
  end.

(** [c in s] for a character, [sub in s] for a string. *)
Fixpoint has_char (c : ascii) (s : string) : bool :=
  match s with
  | EmptyString => false
  | String c' s => Ascii.eqb c' c || has_char c s
  end.

Fixpoint contains (sub s : string) : bool :=
  String.prefix sub s ||
  match s with
  | EmptyString => false
  | String _ s => contains sub s
  end.

(** [s.startswith(p)] and [s[1:]] *)
Definition startswith (p s : string) : bool := String.prefix p s.

Definition drop_first (s : string) : string :=
  match s with
  | EmptyString => EmptyString
  | String _ s => s
  end.

(** [dict(zip(keys, values))]: a key that comes twice keeps the later
    value. *)
Definition dict_of_zip (keys values : list string) : gmap string string :=
  foldl (λ m kv, <[kv.1 := kv.2]> m) ∅ (zip keys values).

(** The chains [if k1 in gene_info: ... elif k2 in gene_info: ...]: the
    value under the first key that is present. *)
Fixpoint first_present (gene_info : gmap string string)
  (keys : list string) : option string :=
  match keys with
  | [] => None
  | k :: keys =>
    match gene_info !! k with
    | Some s => Some s
    | None => first_present gene_info keys
    end
  end.

Definition VALID_MODELS : list string :=
  ["AR"; "AD"; "MT"; "XD"; "XR"; "X"; "Y"].

Definition nonempty (s : string) : bool := negb (String.eqb s "").

Section parser.
Context `{PyStr}.

(** ** [parse_gene]

    The record returned still holds the key [identifier], which
    [parse_genes] pops. *)
Definition parse_gene (gene_info : gmap string string) : outcome dict :=
  match
    match first_present gene_info ["hgnc_id"; "hgnc_idnumber"; "hgncid"] with
    | Some s =>
      match py_int s with
      | Some n => Returns (VInt n)
      | None => Raises (SyntaxError "Invalid hgnc id: None")
      end
    | None => Returns VNone
    end
  with
  | Raises e => Raises e
  | Returns hgnc_id =>
    let gene : dict := <["hgnc_id" := hgnc_id]> ∅ in
    let identifier := hgnc_id in
    let hgnc_symbol :=
      match first_present gene_info ["hgnc_symbol"; "hgncsymbol"; "symbol"]
      with
      | Some s => VStr s
      | None => VNone
      end in
    let gene := <["hgnc_symbol" := hgnc_symbol]> gene in
    match
      if negb (truthy identifier) then
        if truthy hgnc_symbol then Returns hgnc_symbol
        else Raises (SyntaxError "No gene identifier could be found")
      else Returns identifier
    with
    | Raises e => Raises e
    | Returns identifier =>
      let gene := <["identifier" := identifier]> gene in
      let transcripts :=
        default ""
          (first_present gene_info
             ["disease_associated_transcripts";
              "disease_associated_transcript"; "transcripts"]) in
      let gene :=
        <["transcripts" :=
            VStrs (py_strip <$>
                   filter (λ transcript, nonempty transcript = true)
                     (split_on "," transcripts))]> gene in
      let models :=
        default ""
          (first_present gene_info
             ["genetic_disease_models"; "genetic_disease_model";
              "inheritance_models"; "genetic_inheritance_models"]) in
      let gene :=
        <["inheritance_models" :=
            VStrs (py_strip <$>
                   filter (λ model, py_strip model ∈ VALID_MODELS)
                     (split_on "," models))]> gene in
      let gene :=
        <["mosaicism" :=
            VBool (match gene_info !! "mosaicism" with
                   | Some s => nonempty s
                   | None => false
                   end)]> gene in
      let gene :=
        <["reduced_penetrance" :=
            VBool (match gene_info !! "reduced_penetrance" with
                   | Some s => nonempty s
                   | None => false
                   end)]> gene in
      let gene :=
        <["database_entry_version" :=
            match gene_info !! "database_entry_version" with
            | Some s => VStr s
            | None => VNone
            end]> gene in
      Returns gene
    end
  end.

(** ** [parse_genes] *)

(** The variables of the loop: [genes], [header], [hgnc_identifiers] and
    [delimiter]. *)
Record parse_state := {
  st_genes : list dict;
  st_header : list string;
  st_identifiers : gset pykey;
  st_delimiter : ascii
}.

(** Lines 168-212 for the line numbered [i]: the header and delimiter after
    the line, and the record [parse_gene] returned if the line is a gene
    line that is not skipped. *)
Definition read_line (i : nat) (line : string) (header : list string)
  (delimiter : ascii) : outcome (list string * ascii * option dict) :=
  let line := py_rstrip line in
  if negb (0 <? String.length line)%nat then
    Returns (header, delimiter, None)
  else if startswith "#" line then
    if negb (startswith "##" line) then
      let delimiter := if has_char ";" line then ";"%char else delimiter in
      Returns (py_lower <$> split_on delimiter (drop_first line),
               delimiter, None)
    else Returns (header, delimiter, None)
  else
    let '(header, delimiter, is_header) :=
      if (i =? 0)%nat then
        let delimiter := if has_char ";" line then ";"%char else delimiter in
        if contains "hgnc" line || contains "HGNC" line then
          (py_lower <$> split_on delimiter line, delimiter, true)
        else if py_isdigit (hd "" (split_on delimiter line)) then
          (["hgnc_id"], delimiter, false)
        else
          (["hgnc_symbol"], delimiter, false)
      else (header, delimiter, false) in
    if is_header then Returns (header, delimiter, None)
    else
      let splitted_line := split_on delimiter line in
      let gene_info := dict_of_zip header splitted_line in
      let info_found :=
        negb (bool_decide (map_Forall (λ _ s, s = "") gene_info)) in
      if negb info_found then Returns (header, delimiter, None)
      else
        match parse_gene gene_info with
        | Raises _ =>
          Raises (SyntaxError ("Line " +:+ pretty i +:+ " is malformed"))
        | Returns gene => Returns (header, delimiter, Some gene)
        end.

(** Lines 214-218: [identifier = gene.pop('identifier')] and the test
    against the identifiers seen so far. *)
Definition keep_first (gene : dict) (genes : list dict)
  (hgnc_identifiers : gset pykey) : outcome (list dict * gset pykey) :=
  match gene !! "identifier" with
  | None => Raises (KeyError "identifier")
  | Some identifier =>
    let gene := delete "identifier" gene in
    match py_key identifier with
    | None => Raises TypeError
    | Some k =>
      if negb (bool_decide (k ∈ hgnc_identifiers)) then
        Returns (genes ++ [gene], {[k]} ∪ hgnc_identifiers)
      else Returns (genes, hgnc_identifiers)
    end
  end.

(** The loop [for i, line in enumerate(gene_lines)], from line [i] on. *)
Fixpoint parse_lines (i : nat) (gene_lines : list string) (st : parse_state)
  : outcome parse_state :=
  match gene_lines with
  | [] => Returns st
  | line :: gene_lines =>
    match read_line i line (st_header st) (st_delimiter st) with
    | Raises e => Raises e
    | Returns (header, delimiter, None) =>
      parse_lines (S i) gene_lines
        {| st_genes := st_genes st; st_header := header;
           st_identifiers := st_identifiers st; st_delimiter := delimiter |}
    | Returns (header, delimiter, Some gene) =>
      match keep_first gene (st_genes st) (st_identifiers st) with
      | Raises e => Raises e
      | Returns (genes, hgnc_identifiers) =>
        parse_lines (S i) gene_lines
          {| st_genes := genes; st_header := header;
             st_identifiers := hgnc_identifiers; st_delimiter := delimiter |}
      end
    end
  end.

Definition parse_genes (gene_lines : list string) : outcome (list dict) :=
  match
    parse_lines 0 gene_lines
      {| st_genes := []; st_header := []; st_identifiers := ∅;
         st_delimiter := "009"%char |}
  with
  | Returns st => Returns (st_genes st)
  | Raises e => Raises e
  end.

(** ** The gene lines of a file

    Every record of the file in the order of the lines, before the test on
    identifiers: what [parse_genes] would return if it kept them all. *)
Fixpoint gene_records (i : nat) (gene_lines : list string)
  (header : list string) (delimiter : ascii) : outcome (list dict) :=
  match gene_lines with
  | [] => Returns []
  | line :: gene_lines =>
    match read_line i line header delimiter with
    | Raises e => Raises e
    | Returns (header, delimiter, r) =>
      match gene_records (S i) gene_lines header delimiter with
      | Raises e => Raises e
      | Returns records =>
        Returns (match r with
                 | Some gene => delete "identifier" gene :: records
                 | None => records
                 end)
      end
    end
  end.

End parser.

(** The identifier of a record, as lines 86-104 choose it: the [hgnc_id]
    unless it is [None] or 0, else the symbol. *)
Definition gene_identifier (gene : dict) : option pykey :=
  v ← gene !! "hgnc_id";
  if truthy v then py_key v else gene !! "hgnc_symbol" ≫= py_key.

(** The records that bring an identifier not in [seen] and not borne by a
    record before them. *)
Fixpoint first_occurrences (seen : gset pykey) (records : list dict)
  : list dict :=
  match records with
  | [] => []
  | gene :: records =>
    match gene_identifier gene with
    | Some k =>
      if decide (k ∈ seen) then first_occurrences seen records
      else gene :: first_occurrences ({[k]} ∪ seen) records
    | None => first_occurrences seen records
    end
  end.

(** ** The builtins on ASCII text *)

Definition is_space (c : ascii) : bool :=
  let n := nat_of_ascii c in
  ((9 <=? n) && (n <=? 13) || (28 <=? n) && (n <=? 32))%nat.

Definition is_digit (c : ascii) : bool :=
  let n := nat_of_ascii c in ((48 <=? n) && (n <=? 57))%nat.

Fixpoint lstrip (s : string) : string :=
  match s with
  | EmptyString => EmptyString
  | String c s' => if is_space c then lstrip s' else s
  end.

Fixpoint rstrip (s : string) : string :=
  match s with
  | EmptyString => EmptyString
  | String c s =>
    match rstrip s with
    | EmptyString => if is_space c then EmptyString else String c EmptyString
    | s => String c s
    end
  end.

Definition lower_char (c : ascii) : ascii :=
  let n := nat_of_ascii c in
  if ((65 <=? n) && (n <=? 90))%nat then ascii_of_nat (n + 32) else c.

Fixpoint lower (s : string) : string :=
  match s with
  | EmptyString => EmptyString
  | String c s => String (lower_char c) (lower s)
  end.

Fixpoint all_digits (s : string) : bool :=
  match s with
  | EmptyString => true
  | String c s => is_digit c && all_digits s
  end.

(** Decimal digits, single underscores allowed between them. *)
Fixpoint decimal (s : string) (acc : Z) (after_digit : bool) : option Z :=
  match s with
  | EmptyString => if after_digit then Some acc else None
  | String c s =>
    if is_digit c then
      decimal s (10 * acc + Z.of_nat (nat_of_ascii c - 48)) true
    else if Ascii.eqb c "_" && after_digit then decimal s acc false
    else None
  end.

Definition ascii_int (s : string) : option Z :=
  match rstrip (lstrip s) with
  | String "+" s => decimal s 0 false
  | String "-" s => Z.opp <$> decimal s 0 false
  | s => decimal s 0 false
  end.

Definition ascii_str : PyStr :=
  {| py_int := ascii_int;
     py_strip := λ s, rstrip (lstrip s);
     py_rstrip := rstrip;
     py_lower := lower;
     py_isdigit := λ s, nonempty s && all_digits s |}.

Module SampleFile.

(** A panel file with a header line, a repeated gene and an empty row. *)
Definition gene_lines : list string :=
  ["#hgnc_id;hgnc_symbol;mosaicism";
   "7;POT1;";
   "3;ADK;yes";
   ";;";
   "7;POT1;yes";
   "0;ZZZ;"].

(** The record of a line that fills these three columns. *)
Definition record (hgnc_id : Z) (hgnc_symbol : string) (mosaicism : bool)
  : dict :=
  {[ "hgnc_id" := VInt hgnc_id;
     "hgnc_symbol" := VStr hgnc_symbol;
     "transcripts" := VStrs [];
     "inheritance_models" := VStrs [];
     "mosaicism" := VBool mosaicism;
     "reduced_penetrance" := VBool false;
     "database_entry_version" := VNone ]}.

Definition records : list dict :=
  [record 7 "POT1" false; record 3 "ADK" true; record 7 "POT1" true;
   record 0 "ZZZ" false].

Definition genes : list dict :=
  [record 7 "POT1" false; record 3 "ADK" true; record 0 "ZZZ" false].

End SampleFile.

(** * The other methods of [PanelHandler] *)

(** ** [PanelHandler.panel]: [find_one({'_id': panel_id})] *)
Definition panel_by_id (panel_id : ObjectId) : M (option (panel dict)) :=
  λ w, (Returns (panel_collection w !! panel_id), w).

(** ** [PanelHandler.delete_panel]

    The result is the [deleted_count] of the driver's [DeleteResult].  The
    warning logged after the deletion reads [panel_obj['panel_name']] and
    [panel_obj['version']]. *)
Definition delete_panel (panel_obj : panel loc) : M nat :=
  match _id panel_obj with
  | None => raise (KeyError "_id")
  | Some i =>
    λ w,
      let res := if panel_collection w !! i is Some _ then 1%nat else 0%nat in
      let w := with_collection (delete i (panel_collection w)) w in
      match meta panel_obj !! "panel_name" with
      | None => (Raises (KeyError "panel_name"), w)
      | Some _ => (Returns res, w)
      end
  end.

(** ** [PanelHandler.gene_to_panels]

    [gene_dict] maps an [hgnc_id] to a set of panel names.  The cursor of
    [gene_panels()] yields every document of the collection, in the order
    of the store. *)
Definition add_gene_to_panels (panel_name : option value) (gene : dict)
  (gene_dict : gmap pykey (gset pykey)) : outcome (gmap pykey (gset pykey)) :=
  match gene !! "hgnc_id" with
  | None => Raises (KeyError "hgnc_id")
  | Some hgnc_id =>
    match py_key hgnc_id with
    | None => Raises TypeError
    | Some k =>
      match panel_name with
      | None => Raises (KeyError "panel_name")
      | Some name =>
        match py_key name with
        | None => Raises TypeError
        | Some n =>
          match gene_dict !! k with
          | Some names => Returns (<[k := {[n]} ∪ names]> gene_dict)
          | None => Returns (<[k := {[n]}]> gene_dict)
          end
        end
      end
    end
  end.

Fixpoint genes_to_panels (panel_name : option value) (gs : list dict)
  (gene_dict : gmap pykey (gset pykey)) : outcome (gmap pykey (gset pykey)) :=
  match gs with
  | [] => Returns gene_dict
  | gene :: gs =>
    match add_gene_to_panels panel_name gene gene_dict with
    | Raises e => Raises e
    | Returns gene_dict => genes_to_panels panel_name gs gene_dict
    end
  end.

Fixpoint panels_to_gene_dict (panels : list (panel dict))
  (gene_dict : gmap pykey (gset pykey)) : outcome (gmap pykey (gset pykey)) :=
  match panels with
  | [] => Returns gene_dict
  | p :: panels =>
    match genes_to_panels (meta p !! "panel_name") (genes p) gene_dict with
    | Raises e => Raises e
    | Returns gene_dict => panels_to_gene_dict panels gene_dict
    end
  end.

Definition gene_to_panels : M (gmap pykey (gset pykey)) :=
  λ w, (panels_to_gene_dict (map_to_list (panel_collection w)).*2 ∅, w).

(** ** More sample data *)
Module Sample2.

(** A record that lacks [hgnc_id]. *)
Definition gene_nameless : dict := {[ "hgnc_symbol" := VStr "B" ]}.

Definition edit_B : pending_change :=
  {| hgnc_id := 2; action := "edit";
     info := {[ "reduced_penetrance" := VBool true ]}; symbol := "B" |}.

(** An entry whose action is none of the three. *)
Definition remove_B : pending_change :=
  {| hgnc_id := 2; action := "remove"; info := ∅; symbol := "B" |}.

End Sample2.

(** The name [name] is listed under the key [k]. *)
Definition listed (gene_dict : gmap pykey (gset pykey)) (k name : pykey)
  : Prop :=
  ∃ names, gene_dict !! k = Some names ∧ name ∈ names.

(** A line that is blank once stripped, or that starts with [##]. *)
Definition ignored_line `{PyStr} (line : string) : Prop :=
  String.length (py_rstrip line) = 0%nat
  ∨ startswith "##" (py_rstrip line) = true.

Module Sample3.

(** Two named panels that share a gene. *)
Definition named (i : ObjectId) (name : string) (gs : list dict)
  : panel dict :=
  {| _id := Some i; version := PyInt 1; date := 0; genes := gs;
     pending := Some []; is_archived := None;
     meta := {[ "panel_name" := VStr name ]} |}.

Definition two_panels : world :=
  {| heap := [];
     panel_collection :=
       {[ 1%positive := named 1 "cancer" [Sample.gene_A; Sample.gene_B];
          2%positive := named 2 "heart" [Sample.gene_B] ]} |}.

Definition gene_dict : gmap pykey (gset pykey) :=
  {[ KInt 1 := {[ KStr "cancer" ]};
     KInt 2 := {[ KStr "cancer"; KStr "heart" ]} ]}.

(** A file whose third line has no integer in the identifier column. *)
Definition malformed_lines : list string := ["#hgnc_id"; ""; "x"].

End Sample3.

(** * Agreement of the loops with their record-level description *)

(** Closed decidable goals are settled by evaluation. *)
Ltac by_evaluation :=
  match goal with
  | |- ?P → False =>
    refine (bool_decide_eq_false_1 P _); vm_compute; reflexivity
  | |- ?P => refine (bool_decide_eq_true_1 P _); vm_compute; reflexivity
  end.

Lemma scan_pending_spec pend : ∀ new_genes updates h,
  scan_pending pend new_genes updates h =
    (new_genes ++ seq (length h) (length (added_genes pend)),
     foldl index_update updates pend,
     h ++ added_genes pend).
Proof.
  induction pend as [|u pend IH]; intros ng upd h; simpl; unfold index_update.
  - by rewrite !app_nil_r.
  - unfold added_genes. rewrite filter_cons.
    destruct (String.eqb_spec (action u) "add") as [E|E].
    + simpl. rewrite IH. rewrite decide_True by done. rewrite decide_True by done.
      simpl. rewrite length_app. simpl. rewrite <- !app_assoc. simpl.
      replace (length h + 1)%nat with (S (length h)) by lia. done.
    + rewrite IH. rewrite !decide_False by done. done.
Qed.
Lemma copy_field_lookup info k gene k' :
  copy_field info k gene !! k' =
    if decide (k = k') then (if applies info k then info !! k else gene !! k)
    else gene !! k'.
Proof.
  unfold copy_field, applies.
  destruct (info !! k) as [v|] eqn:E.
  - destruct (truthy v); case_decide; subst; simplify_map_eq; done.
  - case_decide; subst; done.
Qed.

Lemma copy_fields_lookup info gene k :
  copy_fields info gene !! k =
    if bool_decide (k ∈ optional_fields) && applies info k then info !! k
    else gene !! k.
Proof.
  unfold copy_fields. rewrite !copy_field_lookup.
  destruct (bool_decide_reflect (k ∈ optional_fields)) as [Hin|Hout]; simpl.
  - unfold optional_fields in Hin.
    rewrite !elem_of_cons, elem_of_nil in Hin.
    destruct Hin as [->|[->|[->|[->|[->|[]]]]]]; simpl;
      by destruct (applies info _).
  - repeat case_decide; subst; try done; exfalso; apply Hout;
      unfold optional_fields; rewrite !elem_of_cons; tauto.
Qed.

Lemma copy_fields_idemp info gene :
  copy_fields info (copy_fields info gene) = copy_fields info gene.
Proof.
  apply map_eq. intros k. rewrite !copy_fields_lookup.
  by destruct (_ && _).
Qed.

Lemma copy_fields_hgnc_id info gene :
  copy_fields info gene !! "hgnc_id" = gene !! "hgnc_id".
Proof. by rewrite copy_fields_lookup. Qed.

Lemma touched_hgnc_id updates gene :
  touched updates gene !! "hgnc_id" = gene !! "hgnc_id".
Proof.
  unfold touched, carried_gene.
  destruct (gene !! "hgnc_id" ≫= py_key) as [[]|]; try done.
  destruct (updates !! n); [|done]. case_decide; [|done].
  simpl. apply copy_fields_hgnc_id.
Qed.

Lemma carried_gene_touched updates gene :
  carried_gene updates (touched updates gene) = carried_gene updates gene.
Proof.
  unfold carried_gene at 1. rewrite touched_hgnc_id.
  unfold touched, carried_gene.
  destruct (gene !! "hgnc_id" ≫= py_key) as [[]|]; try done.
  destruct (updates !! n); [|done]. case_decide; [|done].
  simpl. by rewrite copy_fields_idemp.
Qed.

Lemma touched_idemp updates gene :
  touched updates (touched updates gene) = touched updates gene.
Proof.
  unfold touched at 1. rewrite carried_gene_touched.
  unfold touched. destruct (carried_gene updates gene) eqn:E; simpl; [|done].
  done.
Qed.
Lemma merge_genes_step updates l gs new_genes h gene :
  h !! l = Some gene → hashable_id gene →
  merge_genes updates (l :: gs) new_genes h =
    merge_genes updates gs
      (new_genes ++ match carried_gene updates gene with Some _ => [l] | None => [] end)
      (<[l := touched updates gene]> h).
Proof.
  intros Hl [k Hk]. simpl. rewrite Hl.
  unfold touched, carried_gene, find_update.
  destruct (gene !! "hgnc_id") as [v|] eqn:Hv; [|done]. simpl in Hk |- *.
  rewrite !Hk.
  destruct k as [|n|s]; simpl.
  - by rewrite list_insert_id.
  - destruct (updates !! n) as [u|]; simpl.
    + destruct (String.eqb_spec (action u) "delete") as [E|E].
      * rewrite decide_False by (rewrite E; done). simpl.
        by rewrite app_nil_r, list_insert_id.
      * destruct (String.eqb_spec (action u) "edit") as [E'|E'].
        -- by rewrite decide_True.
        -- rewrite decide_False by done. simpl.
           by rewrite app_nil_r, list_insert_id.
    + by rewrite list_insert_id.
  - by rewrite list_insert_id.
Qed.

Lemma merged_heap_lookup updates gs h i :
  merged_heap updates gs h !! i =
    (if bool_decide (i ∈ gs) then touched updates <$> h !! i else h !! i).
Proof.
  unfold merged_heap. rewrite list_lookup_imap.
  destruct (h !! i); simpl; by case_bool_decide.
Qed.

Lemma merged_heap_nil updates h : merged_heap updates [] h = h.
Proof.
  apply list_eq. intros i. rewrite merged_heap_lookup.
  case_bool_decide as Hin; [|done]. by apply elem_of_nil in Hin.
Qed.

Lemma merged_heap_cons updates l gs h gene :
  h !! l = Some gene →
  merged_heap updates gs (<[l := touched updates gene]> h) =
    merged_heap updates (l :: gs) h.
Proof.
  intros Hl. apply list_eq. intros i. rewrite !merged_heap_lookup.
  destruct (decide (i = l)) as [->|Hne].
  - rewrite list_lookup_insert_eq by (by eapply lookup_lt_Some).
    rewrite Hl. rewrite (bool_decide_true (l ∈ l :: gs)) by apply list_elem_of_here.
    simpl. case_bool_decide; simpl; by rewrite ?touched_idemp.
  - rewrite list_lookup_insert_ne by done.
    by rewrite (bool_decide_ext (i ∈ l :: gs) (i ∈ gs))
      by (rewrite elem_of_cons; tauto).
Qed.

Lemma kept_insert updates l gs h gene :
  h !! l = Some gene →
  kept updates (<[l := touched updates gene]> h) gs = kept updates h gs.
Proof.
  intros Hl. unfold kept. apply list_filter_iff. intros i.
  destruct (decide (i = l)) as [->|Hne].
  - rewrite list_lookup_insert_eq by (by eapply lookup_lt_Some).
    rewrite Hl. simpl. by rewrite carried_gene_touched.
  - by rewrite list_lookup_insert_ne.
Qed.

Lemma gene_ok_insert updates l h gene i :
  h !! l = Some gene →
  gene_ok h i → gene_ok (<[l := touched updates gene]> h) i.
Proof.
  intros Hl (g & Hi & Hg). unfold gene_ok.
  destruct (decide (i = l)) as [->|Hne].
  - rewrite list_lookup_insert_eq by (by eapply lookup_lt_Some).
    assert (g = gene) as -> by congruence.
    eexists; split; [done|]. unfold hashable_id.
    by rewrite touched_hgnc_id.
  - rewrite list_lookup_insert_ne by done. eauto.
Qed.

Lemma merge_genes_run updates gs : ∀ new_genes h,
  Forall (gene_ok h) gs →
  merge_genes updates gs new_genes h =
    (Returns (new_genes ++ kept updates h gs), merged_heap updates gs h).
Proof.
  induction gs as [|l gs IH]; intros ng h Hok.
  - simpl. by rewrite merged_heap_nil, app_nil_r.
  - inversion Hok as [|? ? (gene & Hl & Hg) Hok']; subst.
    rewrite (merge_genes_step _ _ _ _ _ gene) by done.
    rewrite IH.
    + rewrite merged_heap_cons by done. rewrite kept_insert by done.
      f_equal. rewrite <- app_assoc. f_equal.
      unfold kept. rewrite filter_cons. rewrite Hl. simpl.
      destruct (carried_gene updates gene) eqn:E.
      * by rewrite decide_True.
      * rewrite decide_False; [done|]. by intros [].
    + eapply Forall_impl; [done|]. intros i. by apply gene_ok_insert.
Qed.
Lemma deref_Some h ls gs :
  deref h ls = Some gs ↔ Forall2 (λ l g, h !! l = Some g) ls gs.
Proof. apply mapM_Some. Qed.

Lemma deref_app_heap h h' ls gs :
  deref h ls = Some gs → deref (h ++ h') ls = Some gs.
Proof.
  rewrite !deref_Some. intros HF. eapply Forall2_impl; [done|].
  intros l g Hl. by apply lookup_app_l_Some.
Qed.

Lemma deref_seq h gs : deref (h ++ gs) (seq (length h) (length gs)) = Some gs.
Proof.
  apply deref_Some. apply Forall2_same_length_lookup_2.
  { by rewrite length_seq. }
  intros k l g Hl Hg. apply lookup_seq in Hl as [-> _].
  by rewrite lookup_app_r, Nat.add_comm, Nat.add_sub by lia.
Qed.

Lemma deref_lt h ls gs :
  deref h ls = Some gs → Forall (λ l, l < length h)%nat ls.
Proof.
  rewrite deref_Some. intros HF.
  induction HF; constructor; [by eapply lookup_lt_Some|done].
Qed.

Lemma deref_merged_kept updates h ls gs :
  deref h ls = Some gs →
  deref (merged_heap updates ls h) (kept updates h ls) =
    Some (omap (carried_gene updates) gs).
Proof.
  rewrite !deref_Some. intros HF.
  assert (Hsub : ∀ l, l ∈ ls →
    merged_heap updates ls h !! l = touched updates <$> h !! l).
  { intros l Hl. rewrite merged_heap_lookup. by rewrite bool_decide_true. }
  revert Hsub. generalize (merged_heap updates ls h) as h'. intros h' Hsub.
  induction HF as [|l g ls gs Hl HF IH]; [constructor|].
  unfold kept. rewrite filter_cons. rewrite Hl. simpl.
  destruct (carried_gene updates g) as [g'|] eqn:E.
  - rewrite decide_True by done. constructor.
    + rewrite Hsub by set_solver. rewrite Hl. simpl.
      unfold touched. by rewrite E.
    + apply IH. intros; apply Hsub; set_solver.
  - rewrite decide_False by (by intros []).
    apply IH. intros; apply Hsub; set_solver.
Qed.

Lemma deref_merged_base updates h ls gs :
  deref h ls = Some gs →
  deref (merged_heap updates ls h) ls = Some (touched updates <$> gs).
Proof.
  rewrite !deref_Some. intros HF.
  assert (Hsub : ∀ l, l ∈ ls →
    merged_heap updates ls h !! l = touched updates <$> h !! l).
  { intros l Hl. rewrite merged_heap_lookup. by rewrite bool_decide_true. }
  revert Hsub. generalize (merged_heap updates ls h) as h'. intros h' Hsub.
  induction HF as [|l g ls gs Hl HF IH]; [constructor|].
  simpl. constructor.
  - rewrite Hsub by set_solver. by rewrite Hl.
  - apply IH. intros; apply Hsub; set_solver.
Qed.

Lemma deref_merged_fresh updates h ls ls' gs :
  Forall (λ l, l ∉ ls) ls' →
  deref h ls' = Some gs → deref (merged_heap updates ls h) ls' = Some gs.
Proof.
  rewrite !deref_Some. intros Hout HF.
  induction HF as [|l g ls' gs Hl HF IH]; [constructor|].
  inversion Hout; subst. constructor; [|by apply IH].
  rewrite merged_heap_lookup. by rewrite bool_decide_false.
Qed.

Lemma deref_app h ls1 ls2 gs1 gs2 :
  deref h ls1 = Some gs1 → deref h ls2 = Some gs2 →
  deref h (ls1 ++ ls2) = Some (gs1 ++ gs2).
Proof. rewrite !deref_Some. apply Forall2_app. Qed.

Lemma gene_ok_base h ls gs :
  deref h ls = Some gs → Forall hashable_id gs → Forall (gene_ok h) ls.
Proof.
  rewrite deref_Some. intros HF. induction HF; intros Hok; [constructor|].
  inversion Hok; subst. constructor; [by eexists|auto].
Qed.

Lemma pending_updates_scan pend new_genes h :
  scan_pending pend new_genes ∅ h =
    (new_genes ++ seq (length h) (length (added_genes pend)),
     pending_updates pend, h ++ added_genes pend).
Proof. apply scan_pending_spec. Qed.
Lemma apply_pending_run now_merge now_archive p w i base :
  _id p = Some i →
  deref (heap w) (genes p) = Some base →
  Forall hashable_id base →
  let pend := pending_queue p in
  let updates := pending_updates pend in
  let h2 := (heap w ++ base) ++ added_genes pend in
  let new_genes :=
    seq (length (heap w ++ base)) (length (added_genes pend))
      ++ kept updates h2 (genes p) in
  let j := fresh (dom (panel_collection w)) in
  apply_pending now_merge now_archive p w =
    (Returns
       ({| _id := Some j;
           version := py_add_one (version p);
           date := now_merge;
           genes := new_genes;
           pending := Some [];
           is_archived := is_archived p;
           meta := meta p |},
        set_date now_archive (set_is_archived (Some true) p)),
     {| heap := merged_heap updates (genes p) h2;
        panel_collection :=
          merged_collection now_merge now_archive p base i
            (panel_collection w) |})
  ∧ deref (merged_heap updates (genes p) h2) new_genes
      = Some (merged_genes pend base)
  ∧ deref (merged_heap updates (genes p) h2) (genes p)
      = Some (touched updates <$> base).
Proof.
  intros Hid Hbase Hok.
  destruct p as [pid ver dt gs pq arch mt]. simpl in Hid, Hbase. subst pid.
  unfold pending_queue. simpl.
  set (pend := default [] pq).
  set (updates := pending_updates pend).
  set (h2 := (heap w ++ base) ++ added_genes pend).
  set (new_genes := seq _ _ ++ kept updates h2 gs).
  assert (Hbase2 : deref h2 gs = Some base).
  { unfold h2. by do 2 apply deref_app_heap. }
  assert (Hnew : deref (merged_heap updates gs h2) new_genes
                 = Some (merged_genes pend base)).
  { unfold new_genes, merged_genes. apply deref_app.
    - apply deref_merged_fresh; [|apply deref_seq].
      apply Forall_forall. intros l Hl%elem_of_seq Hin.
      apply deref_lt in Hbase. rewrite Forall_forall in Hbase.
      specialize (Hbase _ Hin). rewrite length_app in Hl. lia.
    - by apply deref_merged_kept. }
  assert (Hold : deref (merged_heap updates gs h2) gs
                 = Some (touched updates <$> base)).
  { by apply deref_merged_base. }
  split; [|done].
  unfold apply_pending, mbind, M_bind, bind, deepcopy.
  simpl. rewrite Hbase. simpl.
  unfold on_heap. simpl.
  change (default [] pq) with pend.
  rewrite pending_updates_scan. simpl.
  fold updates.
  rewrite merge_genes_run by (by eapply gene_ok_base).
  simpl. unfold insert_one, to_document. simpl.
  fold h2. fold new_genes. rewrite Hnew. simpl.
  unfold update_panel. simpl.
  unfold mbind, M_bind, bind, find_one_and_replace, to_document. simpl.
  rewrite Hold. simpl.
  unfold merged_collection, new_version_doc, archived_doc.
  unfold set_id, set_genes, pending_queue. simpl.
  destruct (<[_:=_]> (panel_collection w) !! i); reflexivity.
Qed.

(** * Claims about [apply_pending] and [add_pending] *)





(** ** Last write wins *)

Lemma index_update_shadowed k x pend : ∀ m,
  (∃ u', u' ∈ pend ∧ action u' ≠ "add" ∧ hgnc_id u' = k) →
  foldl index_update (<[k := x]> m) pend = foldl index_update m pend.
Proof.
  induction pend as [|u0 pend IH]; intros m (u' & Hin & Hact & Hk).
  { by apply elem_of_nil in Hin. }
  simpl. unfold index_update at 2 4.
  destruct (decide (action u0 = "add")) as [Hadd|Hadd].
  - apply IH. apply elem_of_cons in Hin as [->|Hin]; [done|eauto].
  - destruct (decide (hgnc_id u0 = k)) as [<-|Hne].
    + by rewrite insert_insert_eq.
    + rewrite insert_insert_ne by done. apply IH.
      apply elem_of_cons in Hin as [->|Hin]; [done|eauto].
Qed.

Lemma pending_updates_drop_earlier q1 u q2 :
  action u ≠ "add" →
  (∃ u', u' ∈ q2 ∧ action u' ≠ "add" ∧ hgnc_id u' = hgnc_id u) →
  pending_updates (q1 ++ u :: q2) = pending_updates (q1 ++ q2).
Proof.
  intros Hact Hlater. unfold pending_updates.
  rewrite !foldl_app. simpl. unfold index_update at 2.
  rewrite decide_False by done. by apply index_update_shadowed.
Qed.

Lemma added_genes_drop q1 u q2 :
  action u ≠ "add" → added_genes (q1 ++ u :: q2) = added_genes (q1 ++ q2).
Proof.
  intros Hact. unfold added_genes.
  rewrite !filter_app, filter_cons. by rewrite decide_False.
Qed.

Lemma foldl_index_update_lookup pend : ∀ m n,
  foldl index_update m pend !! n =
    match last (filter (λ u, action u ≠ "add" ∧ hgnc_id u = n) pend) with
    | Some u => Some u
    | None => m !! n
    end.
Proof.
  induction pend as [|u pend IH] using rev_ind; intros m n; [done|].
  rewrite foldl_app, filter_app. simpl. unfold index_update at 1.
  rewrite filter_cons, filter_nil.
  destruct (decide (action u = "add")) as [Hadd|Hadd].
  - rewrite decide_False by tauto. rewrite app_nil_r. apply IH.
  - destruct (decide (hgnc_id u = n)) as [<-|Hne].
    + rewrite decide_True by done. rewrite last_snoc.
      by rewrite lookup_insert_eq.
    + rewrite decide_False by tauto. rewrite app_nil_r.
      rewrite lookup_insert_ne by done. apply IH.
Qed.

(** Two panels that differ at most in their queues, the queues giving the
    same added records and the same [updates], yield the same new
    version. *)
Lemma apply_pending_same_updates now_merge now_archive p q q' w :
  added_genes q = added_genes q' →
  pending_updates q = pending_updates q' →
  new_version_of
    (apply_pending now_merge now_archive (set_pending (Some q) p) w) =
  new_version_of
    (apply_pending now_merge now_archive (set_pending (Some q') p) w).
Proof.
  intros Hadd Hupd. destruct p as [pid ver dt gs pq arch mt].
  unfold apply_pending, set_pending, mbind, M_bind, bind, deepcopy. simpl.
  destruct (deref (heap w) gs) as [base|]; [|done]. simpl.
  destruct pid as [i|]; [|done].
  unfold on_heap. simpl. rewrite !pending_updates_scan. simpl.
  rewrite <- Hadd, <- Hupd.
  destruct (merge_genes _ _ _ _) as [[new_genes|e] h3]; [|done]. simpl.
  unfold insert_one, to_document. simpl.
  destruct (deref h3 new_genes) as [merged|]; [|done]. simpl.
  unfold update_panel, mbind, M_bind, bind, find_one_and_replace,
    to_document. simpl.
  destruct (deref h3 gs) as [base'|]; [|done]. simpl.
  by destruct (<[_:=_]> (panel_collection w) !! i).
Qed.



(** ** Optional fields *)


Lemma new_gene_obj_lookup u k :
  new_gene_obj u !! k =
    if bool_decide (k ∈ optional_fields) && applies (info u) k
    then info u !! k
    else if decide (k = "symbol") then Some (VStr (symbol u))
    else if decide (k = "hgnc_id") then Some (VInt (hgnc_id u))
    else None.
Proof.
  unfold new_gene_obj. rewrite copy_fields_lookup.
  destruct (_ && _); [done|].
  repeat case_decide; subst; by simplify_map_eq.
Qed.



(** ** Added genes and duplicates *)

Lemma new_gene_obj_hgnc_id u :
  new_gene_obj u !! "hgnc_id" = Some (VInt (hgnc_id u)).
Proof. by rewrite new_gene_obj_lookup. Qed.

Lemma carried_gene_hgnc_id updates gene gene' :
  carried_gene updates gene = Some gene' →
  gene' !! "hgnc_id" = gene !! "hgnc_id".
Proof.
  intros Hc. rewrite <- (touched_hgnc_id updates gene).
  unfold touched. by rewrite Hc.
Qed.



(** ** The stored documents after a run *)

Lemma merged_collection_base now_merge now_archive p base i c :
  is_Some (c !! i) →
  merged_collection now_merge now_archive p base i c !! i
    = Some (archived_doc now_archive p base).
Proof.
  intros Hi. unfold merged_collection.
  assert (Hne : fresh (dom c) ≠ i).
  { intros <-. apply (is_fresh (dom c)). by apply elem_of_dom. }
  rewrite lookup_insert_ne by done.
  destruct Hi as [doc ->]. by rewrite lookup_insert_eq.
Qed.

Lemma merged_collection_new now_merge now_archive p base i c :
  is_Some (c !! i) →
  fresh (dom c) ≠ i ∧
  merged_collection now_merge now_archive p base i c !! fresh (dom c)
    = Some (new_version_doc now_merge p base (fresh (dom c))).
Proof.
  intros Hi. unfold merged_collection.
  assert (Hne : fresh (dom c) ≠ i).
  { intros <-. apply (is_fresh (dom c)). by apply elem_of_dom. }
  split; [done|].
  rewrite lookup_insert_ne by done.
  destruct Hi as [doc ->]. rewrite lookup_insert_ne by done.
  by rewrite lookup_insert_eq.
Qed.

Lemma carried_gene_empty gene : carried_gene ∅ gene = Some gene.
Proof.
  unfold carried_gene.
  by destruct (gene !! "hgnc_id" ≫= py_key) as [[]|].
Qed.

Lemma merged_genes_nil (base : list dict) : merged_genes [] base = base.
Proof.
  unfold merged_genes. simpl.
  induction base as [|g base IH]; [done|].
  simpl. unfold pending_updates in *. simpl in *.
  rewrite carried_gene_empty. simpl. by f_equal.
Qed.

Lemma touched_nil (base : list dict) :
  touched (pending_updates []) <$> base = base.
Proof.
  induction base as [|g base IH]; [done|].
  simpl. f_equal; [|done].
  unfold touched, pending_updates. simpl. by rewrite carried_gene_empty.
Qed.





(** ** Proposing a change *)

(** C8: [add_pending] with an action other than add, delete or edit raises
    [ValueError] and leaves the collection (and the heap) as they were.
    With one of the three actions, and the panel in the collection, it
    appends one entry, made of the gene's [hgnc_id], the action, the given
    [info] (an empty dictionary when none is given) and the gene's symbol,
    at the end of the stored queue; the rest of the document, [version]
    included, every other document and the heap stay as they were, and
    the updated document is returned. *)
Theorem add_pending_appends_one_entry p hgnc_gene act inf w :
  (act ∉ valid_actions →
   add_pending p hgnc_gene act inf w
     = (Raises (ValueError ("Invalid action " +:+ act)), w))
  ∧ (act ∈ valid_actions →
     ∀ i doc,
       _id p = Some i →
       panel_collection w !! i = Some doc →
       ∃ doc',
         add_pending p hgnc_gene act inf w
           = (Returns (Some doc'),
              with_collection (<[i := doc']> (panel_collection w)) w)
         ∧ pending doc' =
             Some (pending_queue doc ++
                   [{| hgnc_id := Hgnc.hgnc_id hgnc_gene;
                       action := act;
                       info := default ∅ inf;
                       symbol := Hgnc.hgnc_symbol hgnc_gene |}])
         ∧ version doc' = version doc
         ∧ doc' = set_pending (pending doc') doc).
Proof.
  unfold add_pending. split.
  - intros Hact. by rewrite bool_decide_false.
  - intros Hact i doc Hid Hdoc. rewrite bool_decide_true by done. simpl.
    rewrite Hid. unfold find_one_and_push_pending. rewrite Hdoc.
    eexists. split; [reflexivity|]. simpl.
    split; [|done]. unfold pending_queue. do 3 f_equal.
    destruct inf as [d|]; [|done]. simpl.
    case_bool_decide as Hd; [by rewrite Hd|done].
Qed.

Lemma add_pending_appends_one_entry_sample :
  (add_pending (Sample.panel_obj [Sample.gene_A] [Sample.add_C])
     {| Hgnc.hgnc_id := 1; Hgnc.hgnc_symbol := "A" |} "remove" None
     (Sample.start [Sample.gene_A] [Sample.add_C])
   = (Raises (ValueError "Invalid action remove"),
      Sample.start [Sample.gene_A] [Sample.add_C]))
  ∧ ∃ doc',
      add_pending (Sample.panel_obj [Sample.gene_A] [Sample.add_C])
        {| Hgnc.hgnc_id := 1; Hgnc.hgnc_symbol := "A" |} "edit"
        (Some {[ "mosaicism" := VBool true ]})
        (Sample.start [Sample.gene_A] [Sample.add_C])
      = (Returns (Some doc'),
         with_collection {[ 1%positive := doc' ]}
           (Sample.start [Sample.gene_A] [Sample.add_C]))
      ∧ pending doc' = Some [Sample.add_C; Sample.edit_A]
      ∧ version doc' = PyFloat 1%float.
Proof.
  split.
  - apply (add_pending_appends_one_entry
             (Sample.panel_obj [Sample.gene_A] [Sample.add_C])
             {| Hgnc.hgnc_id := 1; Hgnc.hgnc_symbol := "A" |} "remove" None
             (Sample.start [Sample.gene_A] [Sample.add_C])).
    unfold valid_actions. rewrite !elem_of_cons, elem_of_nil.
    intros [H|[H|[H|[]]]]; discriminate H.
  - destruct (add_pending_appends_one_entry
             (Sample.panel_obj [Sample.gene_A] [Sample.add_C])
             {| Hgnc.hgnc_id := 1; Hgnc.hgnc_symbol := "A" |} "edit"
             (Some {[ "mosaicism" := VBool true ]})
             (Sample.start [Sample.gene_A] [Sample.add_C]))
      as [_ Hvalid].
    destruct (Hvalid ltac:(unfold valid_actions; set_solver) 1%positive
                (Sample.stored [Sample.gene_A] [Sample.add_C])
                eq_refl eq_refl) as (doc' & Hrun & Hq & Hver & _).
    exists doc'. split; [|split; [exact Hq|exact Hver]].
    rewrite Hrun. reflexivity.
Defined.

(** * Claims about the parser *)

Section parser_facts.
Context `{PyStr}.

(** What [parse_gene] returns: an identifier that can be hashed and that
    the rest of the record determines, the label under [hgnc_symbol], and
    no key [symbol]. *)
Lemma parse_gene_returns gene_info gene :
  parse_gene gene_info = Returns gene →
  ∃ identifier k,
    gene !! "identifier" = Some identifier
    ∧ py_key identifier = Some k
    ∧ gene_identifier (delete "identifier" gene) = Some k
    ∧ gene !! "symbol" = None
    ∧ gene !! "hgnc_symbol" =
        Some (match first_present gene_info
                      ["hgnc_symbol"; "hgncsymbol"; "symbol"] with
              | Some s => VStr s
              | None => VNone
              end).
Proof.
  unfold parse_gene, gene_identifier.
  generalize (first_present gene_info ["hgnc_symbol"; "hgncsymbol"; "symbol"]).
  intros sym.
  assert (Hsym : ∀ hgnc_id,
    truthy hgnc_id = false →
    (v ← Some hgnc_id;
     if truthy v then py_key v
     else Some (match sym with Some s => VStr s | None => VNone end)
            ≫= py_key) = py_key (match sym with Some s => VStr s | None => VNone end)).
  { intros hgnc_id Hf. simpl. by rewrite Hf. }
  destruct (first_present gene_info ["hgnc_id"; "hgnc_idnumber"; "hgncid"])
    as [s|].
  - destruct (py_int s) as [n|]; [|intros ?; discriminate].
    destruct (truthy (VInt n)) eqn:Hn.
    + cbn [negb]. intros [= <-]. exists (VInt n), (KInt n).
      simplify_map_eq. rewrite Hn. by repeat split.
    + cbn [negb]. destruct sym as [[|c s']|]; cbn [truthy String.eqb negb];
        try (intros ?; discriminate).
      intros [= <-]. exists (VStr (String c s')), (KStr (String c s')).
      simplify_map_eq. rewrite Hn. by repeat split.
  - cbn [truthy negb]. destruct sym as [[|c s']|]; cbn [truthy String.eqb negb];
      try (intros ?; discriminate).
    intros [= <-]. exists (VStr (String c s')), (KStr (String c s')).
    simplify_map_eq. by repeat split.
Qed.

Lemma read_line_gene i line header delimiter header' delimiter' gene :
  read_line i line header delimiter
    = Returns (header', delimiter', Some gene) →
  ∃ gene_info, parse_gene gene_info = Returns gene.
Proof.
  unfold read_line.
  repeat (case_match; try done); intros [= <- <- <-]; eauto.
Qed.

(** The loop of [parse_genes] keeps, of the records of the gene lines,
    the first one for each identifier not seen before. *)
Lemma parse_lines_spec gene_lines : ∀ i st st',
  parse_lines i gene_lines st = Returns st' →
  ∃ records,
    gene_records i gene_lines (st_header st) (st_delimiter st)
      = Returns records
    ∧ Forall (λ gene, is_Some (gene_identifier gene) ∧
                      gene !! "symbol" = None ∧
                      is_Some (gene !! "hgnc_symbol")) records
    ∧ st_genes st' =
        st_genes st ++ first_occurrences (st_identifiers st) records.
Proof.
  induction gene_lines as [|line gene_lines IH]; intros i st st'; simpl.
  { intros [= <-]. exists []. by rewrite app_nil_r. }
  destruct (read_line i line (st_header st) (st_delimiter st))
    as [[[header delimiter] [gene|]]|e] eqn:Hline; [| |done].
  - destruct (read_line_gene _ _ _ _ _ _ _ Hline) as [gene_info Hgene].
    destruct (parse_gene_returns _ _ Hgene)
      as (identifier & k & Hid & Hk & Hgid & Hsym & Hlabel).
    assert (Hrecord :
      is_Some (gene_identifier (delete "identifier" gene))
      ∧ delete "identifier" gene !! "symbol" = None
      ∧ is_Some (delete "identifier" gene !! "hgnc_symbol")).
    { rewrite Hgid, !lookup_delete_ne, Hsym, Hlabel by done. eauto. }
    unfold keep_first. rewrite Hid, Hk.
    case_bool_decide as Hseen; simpl; intros Hrest;
      apply IH in Hrest as (records & Hrecords & Hall & Hgenes);
      simpl in Hrecords, Hgenes; rewrite Hrecords;
      (eexists; split; [done|]; split; [by constructor|]);
      rewrite Hgenes; simpl; rewrite Hgid.
    + by rewrite decide_True.
    + rewrite decide_False by done. by rewrite <- app_assoc.
  - intros Hrest.
    apply IH in Hrest as (records & Hrecords & Hall & Hgenes).
    simpl in Hrecords, Hgenes. rewrite Hrecords. by eexists.
Qed.

End parser_facts.

(** ** First occurrences *)

Lemma first_occurrences_fresh seen records gene :
  gene ∈ first_occurrences seen records →
  ∃ k, gene_identifier gene = Some k ∧ (k ∉ seen) ∧ gene ∈ records.
Proof.
  revert seen. induction records as [|r records IH]; intros seen; simpl.
  { by intros ?%elem_of_nil. }
  destruct (gene_identifier r) as [k|] eqn:Hk.
  - case_decide as Hseen.
    + intros (k' & ? & ? & ?)%IH. exists k'. by rewrite elem_of_cons; auto.
    + intros [->|(k' & ? & Hk' & ?)%IH]%elem_of_cons.
      * exists k. split; [done|]. split; [done|]. apply list_elem_of_here.
      * exists k'. split; [done|].
        split; [|by apply list_elem_of_further].
        intros Hin'. apply Hk'. by apply elem_of_union_r.
  - intros (k' & ? & ? & ?)%IH. exists k'. by rewrite elem_of_cons; auto.
Qed.

Lemma first_occurrences_sublist seen records :
  (first_occurrences seen records) `sublist_of` records.
Proof.
  revert seen. induction records as [|r records IH]; intros seen; simpl.
  { constructor. }
  destruct (gene_identifier r); [case_decide|].
  - by apply sublist_cons.
  - by apply sublist_skip.
  - by apply sublist_cons.
Qed.

Lemma first_occurrences_NoDup seen records :
  NoDup (gene_identifier <$> first_occurrences seen records).
Proof.
  revert seen. induction records as [|r records IH]; intros seen; simpl.
  { constructor. }
  destruct (gene_identifier r) as [k|] eqn:Hk; [case_decide|]; try done.
  simpl. apply NoDup_cons. split; [|done].
  intros (gene & Heq & Hin)%list_elem_of_fmap.
  apply first_occurrences_fresh in Hin as (k' & Hk' & Hnew & _).
  rewrite Hk in Heq. rewrite Hk' in Heq. injection Heq as ->.
  apply Hnew. apply elem_of_union_l. by apply elem_of_singleton.
Qed.

Lemma first_occurrences_cover seen records gene k :
  gene ∈ records → gene_identifier gene = Some k → k ∉ seen →
  ∃ gene', gene' ∈ first_occurrences seen records
           ∧ gene_identifier gene' = Some k.
Proof.
  revert seen. induction records as [|r records IH]; intros seen; simpl.
  { by intros ?%elem_of_nil. }
  intros Hin Hk Hnew.
  destruct (gene_identifier r) as [k'|] eqn:Hk'.
  - case_decide as Hseen.
    + apply elem_of_cons in Hin as [->|Hin]; [congruence|by apply IH].
    + destruct (decide (k' = k)) as [->|Hne].
      * exists r. split; [apply list_elem_of_here|done].
      * apply elem_of_cons in Hin as [->|Hin]; [congruence|].
        destruct (IH ({[k']} ∪ seen) Hin Hk) as (gene' & ? & ?).
        { intros [?%elem_of_singleton|?]%elem_of_union; congruence. }
        exists gene'. split; [by apply list_elem_of_further|done].
  - apply elem_of_cons in Hin as [->|Hin]; [congruence|by apply IH].
Qed.

Lemma first_occurrences_first seen records gene :
  gene ∈ first_occurrences seen records →
  ∃ n, list_find (λ r, gene_identifier r = gene_identifier gene) records
       = Some (n, gene).
Proof.
  revert seen. induction records as [|r records IH]; intros seen Hin.
  { by apply elem_of_nil in Hin. }
  assert (Hskip : ∀ seen',
    gene ∈ first_occurrences seen' records →
    gene_identifier r ≠ gene_identifier gene →
    ∃ n, list_find (λ r, gene_identifier r = gene_identifier gene)
           (r :: records) = Some (n, gene)).
  { intros seen' [n Hn]%IH Hne. exists (S n).
    simpl. rewrite decide_False by done. by rewrite Hn. }
  simpl in Hin. destruct (gene_identifier r) as [k|] eqn:Hk.
  - case_decide as Hseen.
    + apply (Hskip seen); [done|].
      apply first_occurrences_fresh in Hin as (k' & -> & Hnew & _).
      by intros [= ->].
    + apply elem_of_cons in Hin as [->|Hin].
      * exists 0%nat. simpl. by rewrite decide_True.
      * apply (Hskip ({[k]} ∪ seen)); [done|].
        apply first_occurrences_fresh in Hin as (k' & -> & Hnew & _).
        intros [= ->]. apply Hnew. apply elem_of_union_l.
        by apply elem_of_singleton.
  - apply (Hskip seen); [done|].
    by apply first_occurrences_fresh in Hin as (k' & -> & _).
Qed.

(** C9: when [parse_genes] accepts a file, the records it returns bear
    pairwise distinct identifiers; they are records of the gene lines of the
    file, in the order of the lines; every identifier of the file is borne
    by one of them; and each is the first record of the file with its
    identifier. *)
Theorem parse_genes_keeps_first_occurrences `{PyStr} gene_lines genes :
  parse_genes gene_lines = Returns genes →
  ∃ records,
    gene_records 0 gene_lines [] "009"%char = Returns records
    ∧ NoDup (gene_identifier <$> genes)
    ∧ Forall (λ gene, is_Some (gene_identifier gene)) genes
    ∧ genes `sublist_of` records
    ∧ (∀ r, r ∈ records →
         ∃ gene, gene ∈ genes ∧ gene_identifier gene = gene_identifier r)
    ∧ (∀ gene, gene ∈ genes →
         ∃ n, list_find (λ r, gene_identifier r = gene_identifier gene)
                records = Some (n, gene)).
Proof.
  unfold parse_genes.
  destruct (parse_lines 0 gene_lines _) as [st|e] eqn:Hrun; [|done].
  intros [= <-].
  apply parse_lines_spec in Hrun as (records & Hrecords & Hall & Hgenes).
  simpl in Hrecords, Hgenes. rewrite Hgenes.
  exists records. split; [done|].
  split; [apply first_occurrences_NoDup|].
  split; [|split; [apply first_occurrences_sublist|split]].
  - apply Forall_forall.
    intros gene (k & -> & _)%first_occurrences_fresh. by eexists.
  - intros r Hr. rewrite Forall_forall in Hall.
    destruct (Hall r Hr) as [[k Hk] _].
    destruct (first_occurrences_cover ∅ records r k Hr Hk)
      as (gene & Hin & Hid); [apply not_elem_of_empty|].
    exists gene. split; [done|congruence].
  - apply first_occurrences_first.
Qed.

Lemma parse_genes_keeps_first_occurrences_sample :
  @parse_genes ascii_str SampleFile.gene_lines = Returns SampleFile.genes
  ∧ ∃ records,
      @gene_records ascii_str 0 SampleFile.gene_lines [] "009"%char
        = Returns records
      ∧ NoDup (gene_identifier <$> SampleFile.genes)
      ∧ SampleFile.genes `sublist_of` records.
Proof.
  assert (Hrun : @parse_genes ascii_str SampleFile.gene_lines
                 = Returns SampleFile.genes).
  { by_evaluation. }
  split; [exact Hrun|].
  destruct (@parse_genes_keeps_first_occurrences ascii_str
              SampleFile.gene_lines SampleFile.genes Hrun)
    as (records & Hrecords & Hdistinct & _ & Hsub & _).
  exists records. split; [exact Hrecords|]. split; [exact Hdistinct|].
  exact Hsub.
Defined.

(** ** Where the label of a gene is stored *)

Lemma symbol_groups_elem c case_panels v :
  v ∈ symbol_groups c case_panels ↔
    ∃ i doc gene,
      i ∈ case_panels ∧ c !! i = Some doc ∧ gene ∈ genes doc
      ∧ v = group_id gene.
Proof.
  unfold symbol_groups. rewrite list_elem_of_bind. split.
  - intros (doc & (gene & -> & Hgene)%list_elem_of_fmap
                & (i & Hi & Hdoc)%list_elem_of_omap).
    by exists i, doc, gene.
  - intros (i & doc & gene & Hi & Hdoc & Hgene & ->).
    exists doc. split; [by apply list_elem_of_fmap_2|].
    apply list_elem_of_omap. by exists i.
Qed.

Lemma carried_gene_symbol updates gene gene' :
  carried_gene updates gene = Some gene' →
  gene' !! "symbol" = gene !! "symbol".
Proof.
  unfold carried_gene.
  destruct (gene !! "hgnc_id" ≫= py_key) as [[| n |]|];
    try (by intros [= <-]).
  destruct (updates !! n) as [u|]; [|by intros [= <-]].
  case_decide; [|done]. intros [= <-]. by rewrite copy_fields_lookup.
Qed.



(** * Further properties of [apply_pending] *)

(** The second loop, whatever it is given: it never resizes the heap, and
    it returns only if every reference holds a record with a usable
    [hgnc_id]; otherwise it raises one of three exceptions. *)
Lemma merge_genes_outcome updates gs : ∀ new_genes h r h',
  merge_genes updates gs new_genes h = (r, h') →
  length h' = length h
  ∧ match r with
    | Returns _ => Forall (gene_ok h) gs
    | Raises e => e = NoSuchObject ∨ e = KeyError "hgnc_id" ∨ e = TypeError
    end.
Proof.
  induction gs as [|l gs IH]; intros ng h r h'; simpl.
  { intros [= <- <-]. by split. }
  destruct (h !! l) as [gene|] eqn:Hl; [|intros [= <- <-]; split; auto].
  destruct (gene !! "hgnc_id") as [v|] eqn:Hv;
    [|intros [= <- <-]; split; auto].
  assert (Hstep : ∀ ng' h1,
    (h1 = h ∨ ∃ g', h1 = <[l := g']> h) →
    is_Some (py_key v) →
    merge_genes updates gs ng' h1 = (r, h') →
    length h' = length h
    ∧ match r with
      | Returns _ => Forall (gene_ok h) (l :: gs)
      | Raises e => e = NoSuchObject ∨ e = KeyError "hgnc_id" ∨ e = TypeError
      end).
  { intros ng' h1 Hh1 Hkey Hrest. apply IH in Hrest as [Hlen Hr].
    assert (length h1 = length h) as Hlen1.
    { destruct Hh1 as [->|[g' ->]]; [done|apply length_insert]. }
    split; [congruence|]. destruct r as [out|e]; [|done].
    constructor.
    - exists gene. split; [done|]. unfold hashable_id. by rewrite Hv.
    - eapply Forall_impl; [exact Hr|]. intros i (g & Hi & Hg).
      destruct Hh1 as [->|[g' ->]]; [by exists g|].
      destruct (decide (i = l)) as [->|Hne].
      + exists gene. split; [done|]. unfold hashable_id. by rewrite Hv.
      + rewrite list_lookup_insert_ne in Hi by done. by exists g. }
  unfold find_update. destruct (py_key v) as [k|] eqn:Hk;
    [|intros [= <- <-]; split; auto].
  destruct k as [|n|s]; try (apply Hstep; eauto).
  destruct (updates !! n) as [u|]; [|apply Hstep; eauto].
  destruct (String.eqb (action u) "delete"); [apply Hstep; eauto|].
  destruct (String.eqb (action u) "edit"); apply Hstep; eauto.
Qed.

Lemma gene_ok_hashable h h' gs base :
  deref h gs = Some base → Forall (gene_ok (h ++ h')) gs →
  Forall hashable_id base.
Proof.
  rewrite deref_Some. intros HF. induction HF as [|l g gs base Hl HF IH].
  { constructor. }
  intros Hok. inversion Hok as [|? ? (g' & Hl' & Hg') Hok']; subst.
  constructor; [|by apply IH].
  rewrite (lookup_app_l_Some _ _ _ _ Hl) in Hl'. by injection Hl' as <-.
Qed.



(** ** What a successful run leaves alone *)

Lemma pending_updates_elem pend n u :
  pending_updates pend !! n = Some u →
  u ∈ pend ∧ action u ≠ "add" ∧ hgnc_id u = n.
Proof.
  unfold pending_updates. rewrite foldl_index_update_lookup.
  destruct (last _) as [u'|] eqn:Hlast; [|by rewrite lookup_empty].
  intros [= ->]. apply last_Some_elem_of, list_elem_of_filter in Hlast.
  tauto.
Qed.

Lemma touched_cases updates gene :
  touched updates gene = gene
  ∨ ∃ n u, gene !! "hgnc_id" ≫= py_key = Some (KInt n)
           ∧ updates !! n = Some u ∧ action u = "edit"
           ∧ touched updates gene = copy_fields (info u) gene.
Proof.
  unfold touched, carried_gene.
  destruct (gene !! "hgnc_id" ≫= py_key) as [[|n|]|]; auto.
  destruct (updates !! n) as [u|] eqn:Hu; auto.
  case_decide; auto. right. by exists n, u.
Qed.





(** ** Documents after a run *)

Lemma merged_collection_other now_merge now_archive p base i c k :
  k ≠ i → k ≠ fresh (dom c) →
  merged_collection now_merge now_archive p base i c !! k = c !! k.
Proof.
  intros Hi Hj. unfold merged_collection.
  destruct (<[_:=_]> c !! i);
    by rewrite ?lookup_insert_ne by done.
Qed.



(** ** Applying twice *)

Lemma new_gene_obj_hashable u : hashable_id (new_gene_obj u).
Proof. unfold hashable_id. rewrite new_gene_obj_hgnc_id. by eexists. Qed.

Lemma merged_genes_hashable pend base :
  Forall hashable_id base → Forall hashable_id (merged_genes pend base).
Proof.
  intros Hok. unfold merged_genes, added_genes. apply Forall_app. split.
  - apply Forall_fmap, Forall_forall. intros u _. apply new_gene_obj_hashable.
  - apply Forall_forall. intros g' (g & Hg & Hc)%list_elem_of_omap.
    rewrite Forall_forall in Hok. unfold hashable_id.
    rewrite (carried_gene_hgnc_id _ _ _ Hc). by apply Hok.
Qed.



(** * Further properties of the other handler methods *)

(** X6: [add_pending] never touches the heap, never creates or removes a
    document, and changes at most the [pending] field of the document with
    the panel's [_id], whose earlier entries stay in place at the front of
    the queue.  When the collection does not hold the panel, a valid
    proposal is dropped: the method returns [None] and nothing changes. *)
Theorem add_pending_only_extends_queue p hgnc_gene act inf w r w' :
  add_pending p hgnc_gene act inf w = (r, w') →
  heap w' = heap w
  ∧ dom (panel_collection w') = dom (panel_collection w)
  ∧ (∀ k doc, panel_collection w !! k = Some doc →
       ∃ doc', panel_collection w' !! k = Some doc'
         ∧ doc' = set_pending (pending doc') doc
         ∧ pending_queue doc `prefix_of` pending_queue doc'
         ∧ (_id p ≠ Some k → doc' = doc))
  ∧ (∀ i, act ∈ valid_actions → _id p = Some i →
       panel_collection w !! i = None → r = Returns None ∧ w' = w).
Proof.
  unfold add_pending. case_bool_decide as Hact; simpl.
  { destruct (_id p) as [i|] eqn:Hid.
    - unfold find_one_and_push_pending.
      destruct (panel_collection w !! i) as [doc0|] eqn:Hdoc0.
      + intros [= <- <-]. simpl. split; [done|]. split.
        { rewrite dom_insert_L. apply elem_of_dom_2 in Hdoc0.
          apply set_eq. intros x. rewrite elem_of_union, elem_of_singleton.
          split; [intros [->|?]; auto|tauto]. }
        split.
        * intros k doc Hk. destruct (decide (i = k)) as [->|Hne].
          -- rewrite lookup_insert_eq. eexists. split; [done|].
             rewrite Hdoc0 in Hk. injection Hk as <-. simpl.
             split; [by destruct doc0|].
             split; [by apply prefix_app_r|]. by intros [].
          -- rewrite lookup_insert_ne by done. exists doc.
             split; [done|]. split; [by destruct doc|]. split; [done|done].
        * intros i' _ [= <-] Hnone. congruence.
      + intros [= <- <-]. split; [done|]. split; [done|]. split.
        * intros k doc Hk. exists doc. split; [done|].
          split; [by destruct doc|]. done.
        * done.
    - intros [= <- <-]. split; [done|]. split; [done|]. split.
      + intros k doc Hk. exists doc. split; [done|].
        split; [by destruct doc|]. done.
      + intros i _ [=]. }
  intros [= <- <-]. split; [done|]. split; [done|]. split.
  - intros k doc Hk. exists doc. split; [done|].
    split; [by destruct doc|]. done.
  - intros i Hvalid. done.
Qed.

Lemma add_pending_only_extends_queue_sample :
  let p := set_id (Some 5%positive) (Sample.panel_obj [Sample.gene_A] []) in
  let w := Sample.start [Sample.gene_A] [] in
  add_pending p {| Hgnc.hgnc_id := 1; Hgnc.hgnc_symbol := "A" |} "delete"
    None w = (Returns None, w).
Proof.
  intros p w.
  destruct (add_pending p {| Hgnc.hgnc_id := 1; Hgnc.hgnc_symbol := "A" |}
              "delete" None w) as [r w'] eqn:Hrun.
  destruct (add_pending_only_extends_queue _ _ _ _ _ _ _ Hrun)
    as (_ & _ & _ & Hdropped).
  destruct (Hdropped 5%positive) as [-> ->]; try reflexivity.
  unfold valid_actions. rewrite !elem_of_cons. auto.
Defined.

(** ** Propose, then apply *)

Lemma omap_carried_none (base : list dict) :
  omap (carried_gene ∅) base = base.
Proof.
  induction base as [|g base IH]; [done|].
  simpl. rewrite carried_gene_empty. simpl. by f_equal.
Qed.

Lemma merged_genes_one_add entry base :
  action entry = "add" →
  merged_genes [entry] base = new_gene_obj entry :: base.
Proof.
  intros Hact. unfold merged_genes, added_genes, pending_updates.
  rewrite filter_cons, decide_True by done. simpl.
  unfold index_update. rewrite decide_True by done.
  by rewrite omap_carried_none.
Qed.

Lemma merged_genes_one_update entry base :
  action entry ≠ "add" →
  merged_genes [entry] base =
    omap (λ gene,
            if decide (gene !! "hgnc_id" ≫= py_key
                       = Some (KInt (hgnc_id entry)))
            then (if decide (action entry = "edit")
                  then Some (copy_fields (info entry) gene) else None)
            else Some gene) base.
Proof.
  intros Hact. unfold merged_genes, added_genes, pending_updates.
  rewrite filter_cons, decide_False by done. simpl.
  unfold index_update. rewrite decide_False by done.
  apply list_omap_ext, Forall_Forall2_diag, Forall_forall. intros gene _.
  unfold carried_gene.
  destruct (gene !! "hgnc_id" ≫= py_key) as [[|n|s]|];
    try (by rewrite decide_False).
  destruct (decide (n = hgnc_id entry)) as [->|Hne].
  - rewrite lookup_insert_eq.
    by destruct (decide (Some (KInt (hgnc_id entry))
                         = Some (KInt (hgnc_id entry)))).
  - rewrite lookup_insert_ne, lookup_empty by done.
    destruct (decide (Some (KInt n) = Some (KInt (hgnc_id entry))))
      as [[= ->]|]; done.
Qed.

Lemma merged_genes_one_delete entry (base : list dict) :
  action entry ≠ "add" → action entry ≠ "edit" →
  merged_genes [entry] base =
    filter (λ gene, gene !! "hgnc_id" ≫= py_key
                    ≠ Some (KInt (hgnc_id entry))) base.
Proof.
  intros Hadd Hedit. rewrite merged_genes_one_update by done.
  induction base as [|g base IH]; [done|].
  csimpl. rewrite filter_cons.
  destruct (decide (g !! "hgnc_id" ≫= py_key = Some (KInt (hgnc_id entry))))
    as [Hk|Hk].
  - rewrite (decide_False (P := action entry = "edit")) by done.
    by rewrite decide_False by (by intros ?).
  - rewrite decide_True by done. csimpl. by f_equal.
Qed.

Lemma merged_genes_one_edit entry (base : list dict) :
  action entry = "edit" →
  merged_genes [entry] base =
    (λ gene, if decide (gene !! "hgnc_id" ≫= py_key
                        = Some (KInt (hgnc_id entry)))
             then copy_fields (info entry) gene else gene) <$> base.
Proof.
  intros Hedit. rewrite merged_genes_one_update by (rewrite Hedit; done).
  induction base as [|g base IH]; [done|].
  csimpl. rewrite <- IH.
  destruct (decide (g !! "hgnc_id" ≫= py_key = Some (KInt (hgnc_id entry))));
    [|done].
  by rewrite decide_True.
Qed.



(** ** Deleting a panel *)

(** X8: [delete_panel] removes the document stored under the panel's [_id] and
    no other, reports whether there was one, and leaves the heap alone.
    The document is removed even when the method then raises [KeyError]
    because the panel object has no [panel_name] for the log line. *)
Theorem delete_panel_removes_one_document p w i :
  _id p = Some i →
  ∃ r w',
    delete_panel p w = (r, w')
    ∧ heap w' = heap w
    ∧ panel_by_id i w' = (Returns None, w')
    ∧ (∀ k, k ≠ i → panel_collection w' !! k = panel_collection w !! k)
    ∧ r = match meta p !! "panel_name" with
          | Some _ =>
            Returns (if panel_collection w !! i is Some _
                     then 1%nat else 0%nat)
          | None => Raises (KeyError "panel_name")
          end.
Proof.
  intros Hid. unfold delete_panel. rewrite Hid.
  exists (match meta p !! "panel_name" with
          | Some _ =>
            Returns (if panel_collection w !! i is Some _
                     then 1%nat else 0%nat)
          | None => Raises (KeyError "panel_name")
          end),
         (with_collection (delete i (panel_collection w)) w).
  split; [by destruct (meta p !! "panel_name")|].
  split; [done|]. unfold panel_by_id. simpl.
  rewrite lookup_delete_eq. split; [done|]. split; [|done].
  intros k Hk. by rewrite lookup_delete_ne.
Qed.

Lemma delete_panel_removes_one_document_sample :
  let p := Sample.panel_obj [Sample.gene_A] [] in
  let w := Sample.start [Sample.gene_A] [] in
  ∃ w', delete_panel p w = (Raises (KeyError "panel_name"), w')
        ∧ panel_by_id 1%positive w' = (Returns None, w').
Proof.
  intros p w.
  destruct (delete_panel_removes_one_document p w 1%positive eq_refl)
    as (r & w' & Hrun & _ & Hgone & _ & ->).
  exists w'. split; [exact Hrun|exact Hgone].
Defined.

(** ** The index from genes to panels *)

Lemma add_gene_to_panels_listed panel_name gene gene_dict gene_dict' :
  add_gene_to_panels panel_name gene gene_dict = Returns gene_dict' →
  ∃ k0 n0,
    gene !! "hgnc_id" ≫= py_key = Some k0
    ∧ panel_name ≫= py_key = Some n0
    ∧ ∀ k name,
        listed gene_dict' k name ↔
          listed gene_dict k name ∨ (k = k0 ∧ name = n0).
Proof.
  unfold add_gene_to_panels.
  destruct (gene !! "hgnc_id") as [v|]; [|done]. simpl.
  destruct (py_key v) as [k0|]; [|done].
  destruct panel_name as [pn|]; [|done]. simpl.
  destruct (py_key pn) as [n0|]; [|done].
  intros Hret. exists k0, n0. split; [done|]. split; [done|].
  intros k name. unfold listed.
  destruct (gene_dict !! k0) as [names|] eqn:Hk0; injection Hret as <-.
  - destruct (decide (k = k0)) as [->|Hne].
    + rewrite lookup_insert_eq, Hk0. split.
      * intros (s & [= <-] & [->%elem_of_singleton|Hin]%elem_of_union);
          eauto.
      * intros [(s & [= <-] & Hin)|[_ ->]]; eexists; (split; [done|]);
          apply elem_of_union; [by right|left; by apply elem_of_singleton].
    + rewrite lookup_insert_ne by done. split; [eauto|].
      intros [?|[-> _]]; done.
  - destruct (decide (k = k0)) as [->|Hne].
    + rewrite lookup_insert_eq, Hk0. split.
      * intros (s & [= <-] & ->%elem_of_singleton). eauto.
      * intros [(s & [=] & _)|[_ ->]]. eexists. split; [done|].
        by apply elem_of_singleton.
    + rewrite lookup_insert_ne by done. split; [eauto|].
      intros [?|[-> _]]; done.
Qed.

Lemma genes_to_panels_listed panel_name gs : ∀ gene_dict gene_dict',
  genes_to_panels panel_name gs gene_dict = Returns gene_dict' →
  ∀ k name,
    listed gene_dict' k name ↔
      listed gene_dict k name
      ∨ ∃ gene, gene ∈ gs ∧ gene !! "hgnc_id" ≫= py_key = Some k
                ∧ panel_name ≫= py_key = Some name.
Proof.
  induction gs as [|gene gs IH]; intros d d'; simpl.
  { intros [= <-] k name. split; [eauto|].
    by intros [?|(g & ?%elem_of_nil & _)]. }
  destruct (add_gene_to_panels panel_name gene d) as [d1|] eqn:Hadd; [|done].
  intros Hrest k name.
  apply add_gene_to_panels_listed in Hadd as (k0 & n0 & Hk0 & Hn0 & Hadd).
  rewrite (IH _ _ Hrest), Hadd. split.
  - intros [[?|[-> ->]]|(g & Hg & ? & ?)]; [by left| |].
    + right. exists gene. split; [apply list_elem_of_here|done].
    + right. exists g. split; [by apply list_elem_of_further|done].
  - intros [?|(g & [->|Hg]%elem_of_cons & Hk & Hn)]; [by left; left| |].
    + left. right. split; congruence.
    + right. by exists g.
Qed.

Lemma panels_to_gene_dict_listed panels : ∀ gene_dict gene_dict',
  panels_to_gene_dict panels gene_dict = Returns gene_dict' →
  ∀ k name,
    listed gene_dict' k name ↔
      listed gene_dict k name
      ∨ ∃ doc gene, doc ∈ panels ∧ gene ∈ genes doc
          ∧ gene !! "hgnc_id" ≫= py_key = Some k
          ∧ meta doc !! "panel_name" ≫= py_key = Some name.
Proof.
  induction panels as [|doc panels IH]; intros d d'; simpl.
  { intros [= <-] k name. split; [eauto|].
    by intros [?|(doc & g & ?%elem_of_nil & _)]. }
  destruct (genes_to_panels _ (genes doc) d) as [d1|] eqn:Hdoc; [|done].
  intros Hrest k name.
  rewrite (IH _ _ Hrest), (genes_to_panels_listed _ _ _ _ Hdoc). split.
  - intros [[?|(g & Hg & ? & ?)]|(doc' & g & Hdoc' & ?)]; [by left| |].
    + right. exists doc, g. split; [apply list_elem_of_here|done].
    + right. exists doc', g. split; [by apply list_elem_of_further|done].
  - intros [?|(doc' & g & [->|Hin]%elem_of_cons & Hg & Hk & Hn)];
      [by left; left| |].
    + left. right. by exists g.
    + right. by exists doc', g.
Qed.

(** X9: When [gene_to_panels] returns, the dictionary lists a panel name under
    a gene identifier exactly when some stored panel of that name holds a
    gene with that [hgnc_id]; no key is left with an empty set, and the
    collection is not changed. *)
Theorem gene_to_panels_lists_memberships w gene_dict w' :
  gene_to_panels w = (Returns gene_dict, w') →
  w' = w
  ∧ (∀ k name,
       (∃ names, gene_dict !! k = Some names ∧ name ∈ names) ↔
         ∃ i doc gene,
           panel_collection w !! i = Some doc ∧ gene ∈ genes doc
           ∧ gene !! "hgnc_id" ≫= py_key = Some k
           ∧ meta doc !! "panel_name" ≫= py_key = Some name)
  ∧ (∀ k names, gene_dict !! k = Some names → names ≠ ∅).
Proof.
  unfold gene_to_panels. intros [= Hrun <-]. split; [done|].
  pose proof (panels_to_gene_dict_listed _ _ _ Hrun) as Hlisted.
  assert (Hiff : ∀ k name,
    listed gene_dict k name ↔
      ∃ i doc gene,
        panel_collection w !! i = Some doc ∧ gene ∈ genes doc
        ∧ gene !! "hgnc_id" ≫= py_key = Some k
        ∧ meta doc !! "panel_name" ≫= py_key = Some name).
  { intros k name. rewrite Hlisted. split.
    - intros [(s & Hs & _)|(doc & g & Hdoc & ?)];
        [by rewrite lookup_empty in Hs|].
      apply list_elem_of_fmap in Hdoc as ([i doc'] & -> & Hin).
      apply elem_of_map_to_list in Hin. by exists i, doc', g.
    - intros (i & doc & g & Hdoc & ?). right. exists doc, g.
      split; [|done]. apply list_elem_of_fmap. exists (i, doc).
      split; [done|]. by apply elem_of_map_to_list. }
  split; [exact Hiff|].
  (* a set is created with its first name and only grows *)
  clear Hiff Hlisted. revert Hrun.
  assert (Hinv : ∀ panels d d',
    (∀ k names, d !! k = Some names → names ≠ ∅) →
    panels_to_gene_dict panels d = Returns d' →
    ∀ k names, d' !! k = Some names → names ≠ ∅).
  { assert (Hgenes : ∀ pn gs d d',
      (∀ k names, d !! k = Some names → names ≠ ∅) →
      genes_to_panels pn gs d = Returns d' →
      ∀ k names, d' !! k = Some names → names ≠ ∅).
    { intros pn gs. induction gs as [|g gs IH]; intros d d' Hd; simpl.
      { by intros [= <-]. }
      destruct (add_gene_to_panels pn g d) as [d1|] eqn:Hadd; [|done].
      apply IH. unfold add_gene_to_panels in Hadd.
      destruct (g !! "hgnc_id") as [v|]; [|done].
      destruct (py_key v) as [k0|]; [|done].
      destruct pn as [pn|]; [|done].
      destruct (py_key pn) as [n0|]; [|done].
      intros k names.
      destruct (d !! k0) as [s|] eqn:Hk0; injection Hadd as <-;
        (destruct (decide (k = k0)) as [->|Hne];
         [rewrite lookup_insert_eq; intros [= <-]
         |rewrite lookup_insert_ne by done; apply Hd]).
      - intros Hempty. apply (not_elem_of_empty (C := gset pykey) n0).
        rewrite <- Hempty. apply elem_of_union_l. by apply elem_of_singleton.
      - intros Hempty. apply (not_elem_of_empty (C := gset pykey) n0).
        rewrite <- Hempty. by apply elem_of_singleton. }
    intros panels. induction panels as [|doc panels IH]; intros d d' Hd;
      simpl.
    { by intros [= <-]. }
    destruct (genes_to_panels _ (genes doc) d) as [d1|] eqn:Hdoc; [|done].
    apply IH. by eapply Hgenes. }
  intros Hrun. eapply Hinv; [|exact Hrun].
  intros k names Hk. by rewrite lookup_empty in Hk.
Qed.

Lemma gene_to_panels_lists_memberships_sample :
  gene_to_panels Sample3.two_panels
    = (Returns Sample3.gene_dict, Sample3.two_panels)
  ∧ ∀ k name,
      (∃ names, Sample3.gene_dict !! k = Some names ∧ name ∈ names) ↔
        ∃ i doc gene,
          panel_collection Sample3.two_panels !! i = Some doc
          ∧ gene ∈ genes doc
          ∧ gene !! "hgnc_id" ≫= py_key = Some k
          ∧ meta doc !! "panel_name" ≫= py_key = Some name.
Proof.
  assert (Hrun : gene_to_panels Sample3.two_panels
                 = (Returns Sample3.gene_dict, Sample3.two_panels)).
  { unfold gene_to_panels.
    apply (f_equal (λ r, (r, Sample3.two_panels))). by_evaluation. }
  split; [exact Hrun|].
  apply (gene_to_panels_lists_memberships _ _ _ Hrun).
Defined.

(** * Further properties of the parser *)

Section parser_more.
Context `{PyStr}.

Lemma parse_gene_schema gene_info gene :
  parse_gene gene_info = Returns gene →
  dom gene = list_to_set
    ["hgnc_id"; "hgnc_symbol"; "identifier"; "transcripts";
     "inheritance_models"; "mosaicism"; "reduced_penetrance";
     "database_entry_version"]
  ∧ (∃ models, gene !! "inheritance_models" = Some (VStrs models)
               ∧ Forall (λ model, model ∈ VALID_MODELS) models)
  ∧ (∃ transcripts, gene !! "transcripts" = Some (VStrs transcripts))
  ∧ (∃ b, gene !! "mosaicism" = Some (VBool b))
  ∧ (∃ b, gene !! "reduced_penetrance" = Some (VBool b))
  ∧ (gene !! "hgnc_id" = Some VNone
     ∨ ∃ n, gene !! "hgnc_id" = Some (VInt n)).
Proof.
  unfold parse_gene.
  generalize (first_present gene_info ["hgnc_symbol"; "hgncsymbol"; "symbol"]).
  intros sym.
  destruct (match first_present gene_info
                    ["hgnc_id"; "hgnc_idnumber"; "hgncid"] with
            | Some s => match py_int s with
                        | Some n => Returns (VInt n)
                        | None => Raises (SyntaxError "Invalid hgnc id: None")
                        end
            | None => Returns VNone
            end) as [hgnc_id|] eqn:Hhgnc; [|done].
  assert (Hid : hgnc_id = VNone ∨ ∃ n, hgnc_id = VInt n).
  { destruct (first_present gene_info _) as [s|]; [|injection Hhgnc; auto].
    destruct (py_int s) as [n|]; [|done]. injection Hhgnc as <-. eauto. }
  destruct (if negb (truthy hgnc_id) then _ else _) as [identifier|]; [|done].
  intros [= <-]. split; [|split; [|split; [|split; [|split]]]].
  - rewrite !dom_insert_L, dom_empty_L. simpl.
    apply set_eq. intros k. rewrite !elem_of_union, !elem_of_singleton.
    rewrite elem_of_empty. tauto.
  - eexists. split; [by simplify_map_eq|].
    apply Forall_fmap, Forall_forall. intros m Hm.
    by apply list_elem_of_filter in Hm as [Hvalid _].
  - eexists. by simplify_map_eq.
  - eexists. by simplify_map_eq.
  - eexists. by simplify_map_eq.
  - destruct Hid as [->|[n ->]]; [left|right; exists n]; by simplify_map_eq.
Qed.

(** What holds of every record made from a result of [parse_gene] holds
    of every record [parse_genes] returns. *)
Lemma parse_lines_records (P : dict → Prop) :
  (∀ gene_info gene,
     parse_gene gene_info = Returns gene → P (delete "identifier" gene)) →
  ∀ gene_lines i st st',
    Forall P (st_genes st) →
    parse_lines i gene_lines st = Returns st' →
    Forall P (st_genes st').
Proof.
  intros HP gene_lines.
  induction gene_lines as [|line gene_lines IH]; intros i st st' Hst; simpl.
  { by intros [= <-]. }
  destruct (read_line i line (st_header st) (st_delimiter st))
    as [[[header delimiter] [gene|]]|e] eqn:Hline; [| |done].
  - destruct (read_line_gene _ _ _ _ _ _ _ Hline) as [gene_info Hgene].
    unfold keep_first.
    destruct (gene !! "identifier") as [identifier|]; [|done].
    destruct (py_key identifier) as [k|]; [|done].
    case_bool_decide; simpl; apply IH; simpl; [done|].
    apply Forall_app. split; [done|]. constructor; [|done]. by eapply HP.
  - by apply IH.
Qed.

(** X10: Every record [parse_genes] returns has the same seven keys (the
    transcripts under [transcripts], no [identifier]); its
    [inheritance_models] are all among [VALID_MODELS], its flags are
    booleans, and its [hgnc_id] is an integer or [None]. *)
Theorem parse_genes_record_schema gene_lines genes :
  parse_genes gene_lines = Returns genes →
  Forall (λ gene : dict,
    dom gene = list_to_set
      ["hgnc_id"; "hgnc_symbol"; "transcripts"; "inheritance_models";
       "mosaicism"; "reduced_penetrance"; "database_entry_version"]
    ∧ (∃ models, gene !! "inheritance_models" = Some (VStrs models)
                 ∧ Forall (λ model, model ∈ VALID_MODELS) models)
    ∧ (∃ transcripts, gene !! "transcripts" = Some (VStrs transcripts))
    ∧ (∃ b, gene !! "mosaicism" = Some (VBool b))
    ∧ (∃ b, gene !! "reduced_penetrance" = Some (VBool b))
    ∧ (gene !! "hgnc_id" = Some VNone
       ∨ ∃ n, gene !! "hgnc_id" = Some (VInt n))) genes.
Proof.
  unfold parse_genes.
  destruct (parse_lines 0 gene_lines _) as [st'|] eqn:Hrun; [|done].
  intros [= <-].
  refine (parse_lines_records _ _ gene_lines 0 _ st' _ Hrun);
    [|by constructor].
  intros gene_info gene Hgene.
  apply parse_gene_schema in Hgene
    as (Hdom & Hmodels & Htranscripts & Hmos & Hred & Hid).
  rewrite !lookup_delete_ne by done.
  split; [|done]. rewrite dom_delete_L, Hdom. simpl.
  apply set_eq. intros k.
  rewrite elem_of_difference, !elem_of_union, !elem_of_singleton.
  rewrite elem_of_empty. split.
  - intros [[?|[?|[?|?]]] Hne]; [tauto|tauto|done|tauto].
  - intros Hk. split; [tauto|].
    intros ->. repeat destruct Hk as [Hk|Hk]; done.
Qed.

End parser_more.

Lemma parse_genes_record_schema_sample :
  Forall (λ gene : dict,
    dom gene = list_to_set
      ["hgnc_id"; "hgnc_symbol"; "transcripts"; "inheritance_models";
       "mosaicism"; "reduced_penetrance"; "database_entry_version"]
    ∧ (∃ models, gene !! "inheritance_models" = Some (VStrs models)
                 ∧ Forall (λ model, model ∈ VALID_MODELS) models)
    ∧ (∃ transcripts, gene !! "transcripts" = Some (VStrs transcripts))
    ∧ (∃ b, gene !! "mosaicism" = Some (VBool b))
    ∧ (∃ b, gene !! "reduced_penetrance" = Some (VBool b))
    ∧ (gene !! "hgnc_id" = Some VNone
       ∨ ∃ n, gene !! "hgnc_id" = Some (VInt n))) SampleFile.genes.
Proof.
  apply (@parse_genes_record_schema ascii_str SampleFile.gene_lines).
  by_evaluation.
Defined.


Section parser_lines.
Context `{PyStr}.

Lemma keep_first_returns gene_info gene genes identifiers :
  parse_gene gene_info = Returns gene →
  ∃ r, keep_first gene genes identifiers = Returns r.
Proof.
  intros (identifier & k & Hid & Hk & _)%parse_gene_returns.
  unfold keep_first. rewrite Hid, Hk. case_bool_decide; by eexists.
Qed.

Lemma read_line_raises i line header delimiter e :
  read_line i line header delimiter = Raises e →
  e = SyntaxError ("Line " +:+ pretty i +:+ " is malformed")
  ∧ String.length (py_rstrip line) ≠ 0%nat
  ∧ startswith "#" (py_rstrip line) = false.
Proof.
  unfold read_line.
  destruct (0 <? String.length (py_rstrip line))%nat eqn:Hlen; [|done].
  apply Nat.ltb_lt in Hlen. simpl.
  destruct (startswith "#" (py_rstrip line)) eqn:Hhash.
  { by destruct (negb (startswith "##" (py_rstrip line))). }
  repeat (case_match; try done).
  all: intros [= <-]; split; [done|]; split; [lia|done].
Qed.

(** X11: [parse_genes] raises nothing but the [SyntaxError] that names a line:
    the number is the zero-based position in the file, blank and comment
    lines counted, of a line that is neither blank nor starts with [#]. *)
Theorem parse_genes_raises_line_number gene_lines e :
  parse_genes gene_lines = Raises e →
  ∃ i line,
    gene_lines !! i = Some line
    ∧ e = SyntaxError ("Line " +:+ pretty i +:+ " is malformed")
    ∧ String.length (py_rstrip line) ≠ 0%nat
    ∧ startswith "#" (py_rstrip line) = false.
Proof.
  unfold parse_genes.
  destruct (parse_lines 0 gene_lines _) as [|e'] eqn:Hrun; [done|].
  intros [= <-]. revert Hrun.
  generalize {| st_genes := []; st_header := []; st_identifiers := ∅;
                st_delimiter := "009"%char |}.
  assert (Hgen : ∀ i0 st,
    parse_lines i0 gene_lines st = Raises e' →
    ∃ i line,
      gene_lines !! i = Some line
      ∧ e' = SyntaxError ("Line " +:+ pretty (i0 + i)%nat +:+ " is malformed")
      ∧ String.length (py_rstrip line) ≠ 0%nat
      ∧ startswith "#" (py_rstrip line) = false).
  { induction gene_lines as [|line gene_lines IH]; intros i0 st; [done|].
    simpl.
    destruct (read_line i0 line (st_header st) (st_delimiter st))
      as [[[header delimiter] [gene|]]|e0] eqn:Hline.
    - destruct (read_line_gene _ _ _ _ _ _ _ Hline) as [gene_info Hgene].
      destruct (keep_first_returns _ _ (st_genes st) (st_identifiers st)
                  Hgene) as [[genes ids] ->].
      intros (i & l & Hl & -> & ?)%IH. exists (S i), l.
      split; [done|]. by rewrite Nat.add_succ_r.
    - intros (i & l & Hl & -> & ?)%IH. exists (S i), l.
      split; [done|]. by rewrite Nat.add_succ_r.
    - intros [= <-]. apply read_line_raises in Hline as (-> & ? & ?).
      exists 0%nat, line. by rewrite Nat.add_0_r. }
  intros st Hrun. exact (Hgen 0%nat st Hrun).
Qed.

(** ** Lines that do not count *)

Lemma startswith_hashes line :
  startswith "##" line = true → startswith "#" line = true.
Proof.
  unfold startswith. destruct line as [|c [|c' line]]; simpl; try done;
    repeat (case_match; try done).
Qed.

Lemma read_line_ignored i line header delimiter :
  ignored_line line →
  read_line i line header delimiter = Returns (header, delimiter, None).
Proof.
  unfold read_line. intros [Hblank|Hcomment].
  - by rewrite Hblank.
  - destruct (0 <? String.length (py_rstrip line))%nat; [|done]. simpl.
    by rewrite (startswith_hashes _ Hcomment), Hcomment.
Qed.

Lemma read_line_later i j line header delimiter x :
  i ≠ 0%nat → j ≠ 0%nat →
  read_line i line header delimiter = Returns x →
  read_line j line header delimiter = Returns x.
Proof.
  intros Hi Hj. unfold read_line.
  apply Nat.eqb_neq in Hi, Hj. rewrite Hi, Hj.
  repeat (case_match; try done).
Qed.

Lemma parse_lines_later gene_lines : ∀ i j st st',
  i ≠ 0%nat → j ≠ 0%nat →
  parse_lines i gene_lines st = Returns st' →
  parse_lines j gene_lines st = Returns st'.
Proof.
  induction gene_lines as [|line gene_lines IH]; intros i j st st' Hi Hj;
    [done|].
  simpl.
  destruct (read_line i line _ _) as [[[header delimiter] r]|] eqn:Hline;
    [|done].
  rewrite (read_line_later i j _ _ _ _ Hi Hj Hline).
  destruct r as [gene|].
  - destruct (keep_first _ _ _) as [[genes ids]|]; [|done].
    by apply IH.
  - by apply IH.
Qed.

Lemma parse_lines_app l1 : ∀ l2 i st,
  parse_lines i (l1 ++ l2) st =
    match parse_lines i l1 st with
    | Returns st1 => parse_lines (i + length l1) l2 st1
    | Raises e => Raises e
    end.
Proof.
  induction l1 as [|line l1 IH]; intros l2 i st; simpl.
  { by rewrite Nat.add_0_r. }
  destruct (read_line i line _ _) as [[[header delimiter] [gene|]]|];
    [| |done].
  - destruct (keep_first _ _ _) as [[genes ids]|]; [|done].
    rewrite IH. by rewrite Nat.add_succ_r.
  - rewrite IH. by rewrite Nat.add_succ_r.
Qed.

(** X12: A blank line or a [##] comment anywhere after the first line of the
    file does not change what [parse_genes] returns: the file with the
    line and the file without it yield the same records. *)
Theorem parse_genes_ignores_blank_and_comment_lines
    first rest1 line rest2 genes :
  ignored_line line →
  parse_genes (first :: rest1 ++ line :: rest2) = Returns genes
  ↔ parse_genes (first :: rest1 ++ rest2) = Returns genes.
Proof.
  intros Hignored. unfold parse_genes.
  rewrite !app_comm_cons, !(parse_lines_app (first :: rest1)).
  destruct (parse_lines 0 (first :: rest1) _) as [st1|]; [|done].
  simpl. rewrite read_line_ignored by done.
  replace {| st_genes := st_genes st1; st_header := st_header st1;
             st_identifiers := st_identifiers st1;
             st_delimiter := st_delimiter st1 |} with st1
    by (by destruct st1).
  split.
  - destruct (parse_lines (S (S _)) rest2 st1) as [st'|] eqn:Hrun; [|done].
    intros [= <-].
    by rewrite (parse_lines_later rest2 (S (S (length rest1)))
                  (S (length rest1)) st1 st' ltac:(lia) ltac:(lia) Hrun).
  - destruct (parse_lines (S (length rest1)) rest2 st1) as [st'|] eqn:Hrun;
      [|done].
    intros [= <-].
    by rewrite (parse_lines_later rest2 (S (length rest1))
                  (S (S (length rest1))) st1 st' ltac:(lia) ltac:(lia)
                  Hrun).
Qed.

(** X13: Without a header, the records of a file are read only if its very first
    line is a gene line: when the first line is blank and no line starts
    with [#], every gene line is skipped and the result is empty. *)
Theorem parse_genes_blank_first_line_loses_genes blank gene_lines :
  String.length (py_rstrip blank) = 0%nat →
  Forall (λ line, startswith "#" (py_rstrip line) = false) gene_lines →
  parse_genes (blank :: gene_lines) = Returns [].
Proof.
  intros Hblank Hdata. unfold parse_genes. simpl.
  rewrite read_line_ignored by (by left). simpl.
  assert (Hgen : ∀ i delimiter, i ≠ 0%nat →
    parse_lines i gene_lines
      {| st_genes := []; st_header := []; st_identifiers := ∅;
         st_delimiter := delimiter |}
    = Returns {| st_genes := []; st_header := []; st_identifiers := ∅;
                 st_delimiter := delimiter |}).
  { induction Hdata as [|line gene_lines Hline Hdata IH];
      intros i delimiter Hi; [done|].
    simpl. unfold read_line at 1.
    destruct (0 <? String.length (py_rstrip line))%nat; simpl;
      [|by apply IH].
    rewrite Hline. apply Nat.eqb_neq in Hi. rewrite Hi.
    unfold dict_of_zip. simpl.
    rewrite bool_decide_true by apply map_Forall_empty. simpl.
    apply IH. by apply Nat.eqb_neq. }
  by rewrite (Hgen 1%nat).
Qed.

End parser_lines.

Lemma parse_genes_raises_line_number_sample :
  ∃ line,
    Sample3.malformed_lines !! 2%nat = Some line
    ∧ @parse_genes ascii_str Sample3.malformed_lines
        = Raises (SyntaxError "Line 2 is malformed").
Proof.
  assert (Hrun : @parse_genes ascii_str Sample3.malformed_lines
                 = Raises (SyntaxError "Line 2 is malformed"))
    by by_evaluation.
  destruct (@parse_genes_raises_line_number ascii_str _ _ Hrun)
    as (i & line & Hline & _).
  exists "x". split; [reflexivity|exact Hrun].
Defined.

Lemma parse_genes_ignores_blank_and_comment_lines_sample :
  @parse_genes ascii_str ["#hgnc_id"; "7"; "## checked"; "3"]
    = @parse_genes ascii_str ["#hgnc_id"; "7"; "3"].
Proof.
  destruct (@parse_genes ascii_str ["#hgnc_id"; "7"; "3"])
    as [genes|e] eqn:Hrun; [|exfalso; revert Hrun; by_evaluation].
  apply (@parse_genes_ignores_blank_and_comment_lines ascii_str
           "#hgnc_id" ["7"] "## checked" ["3"] genes).
  - right. reflexivity.
  - exact Hrun.
Defined.

Lemma parse_genes_blank_first_line_loses_genes_sample :
  @parse_genes ascii_str [""; "12"; "13"] = Returns []
  ∧ match @parse_genes ascii_str ["12"; "13"] with
    | Returns genes => length genes
    | Raises _ => 0%nat
    end = 2%nat.
Proof.
  split.
  - apply (@parse_genes_blank_first_line_loses_genes ascii_str ""
             ["12"; "13"]).
    + reflexivity.
    + repeat constructor.
  - by_evaluation.
Defined.

Section parser_errors.
Context `{PyStr}.

(** X14: [parse_gene] rejects a row in two cases only: the identifier column is
    present but [int] does not accept it; or there is no usable identifier
    (no such column, or the number 0) and no symbol either (no such column,
    or an empty one). *)
Theorem parse_gene_raises_iff gene_info :
  let no_symbol :=
    match first_present gene_info ["hgnc_symbol"; "hgncsymbol"; "symbol"]
    with
    | Some s => s = ""
    | None => True
    end in
  ((∃ e, parse_gene gene_info = Raises e) ↔
   match first_present gene_info ["hgnc_id"; "hgnc_idnumber"; "hgncid"] with
   | Some s => py_int s = None ∨ (py_int s = Some 0 ∧ no_symbol)
   | None => no_symbol
   end)
  ∧ (∀ e, parse_gene gene_info = Raises e →
       e = SyntaxError "Invalid hgnc id: None"
       ∨ e = SyntaxError "No gene identifier could be found").
Proof.
  intros no_symbol. subst no_symbol. unfold parse_gene.
  destruct (first_present gene_info ["hgnc_symbol"; "hgncsymbol"; "symbol"])
    as [[|c sym]|];
    destruct (first_present gene_info ["hgnc_id"; "hgnc_idnumber"; "hgncid"])
      as [s|]; try destruct (py_int s) as [[|n|n]|]; simpl;
    (split; [split|]);
    try (intros [e He]; discriminate He);
    try (intros [?|[? ?]]; discriminate);
    try (intros ? [= <-]; auto);
    try (intros _; by eexists);
    try (intros [e He]; auto);
    try (intros []; done); try done.
Qed.

End parser_errors.

Lemma parse_gene_raises_iff_sample :
  (∃ e, @parse_gene ascii_str {[ "hgnc_id" := "0"; "symbol" := "" ]}
        = Raises e).
Proof.
  apply (@parse_gene_raises_iff ascii_str
           {[ "hgnc_id" := "0"; "symbol" := "" ]}).
  vm_compute. right. split; reflexivity.
Defined.

(** ** The symbols of a case *)

Lemma mapM_py_key_elem (vs : list value) ks k :
  mapM py_key vs = Some ks →
  k ∈ ks ↔ ∃ v, v ∈ vs ∧ py_key v = Some k.
Proof.
  intros HF%mapM_Some. split.
  - intros [n Hn]%list_elem_of_lookup.
    destruct (Forall2_lookup_r _ _ _ _ _ HF Hn) as (v & Hv & Hkey).
    exists v. split; [by eapply list_elem_of_lookup_2|done].
  - intros (v & [n Hn]%list_elem_of_lookup & Hkey).
    destruct (Forall2_lookup_l _ _ _ _ _ HF Hn) as (k' & Hk' & Hkey').
    rewrite Hkey in Hkey'. injection Hkey' as <-.
    by eapply list_elem_of_lookup_2.
Qed.

(** X15: [clinical_symbols] reads and never writes; its result depends only on
    which panels the case names, not on their order or repetition, and a
    name without a stored panel adds nothing; it raises, and then a
    [TypeError], only when a gene of a named panel has a list under
    [symbol]. *)
Theorem clinical_symbols_depends_on_named_panels case_panels case_panels' w :
  (∀ i, is_Some (panel_collection w !! i) →
        i ∈ case_panels ↔ i ∈ case_panels') →
  (clinical_symbols case_panels w).1 = (clinical_symbols case_panels' w).1
  ∧ (clinical_symbols case_panels w).2 = w
  ∧ ∀ e, (clinical_symbols case_panels w).1 = Raises e →
      e = TypeError
      ∧ ∃ i doc gene symbols,
          i ∈ case_panels ∧ panel_collection w !! i = Some doc
          ∧ gene ∈ genes doc ∧ gene !! "symbol" = Some (VStrs symbols).
Proof.
  intros Hsame.
  assert (Hgroups : ∀ v,
    v ∈ symbol_groups (panel_collection w) case_panels ↔
    v ∈ symbol_groups (panel_collection w) case_panels').
  { intros v. rewrite !symbol_groups_elem.
    split; intros (i & doc & gene & Hi & Hdoc & ?); exists i, doc, gene;
      (split; [apply Hsame; [by eexists|done]|done]) ||
      (split; [apply Hsame in Hi; [done|by eexists]|done]). }
  unfold clinical_symbols.
  destruct (mapM py_key (symbol_groups (panel_collection w) case_panels))
    as [ks|] eqn:Hks;
    destruct (mapM py_key (symbol_groups (panel_collection w) case_panels'))
      as [ks'|] eqn:Hks'; simpl.
  - split; [|split; [done|intros e [=]]]. f_equal.
    apply set_eq. intros k. rewrite !elem_of_list_to_set.
    rewrite (mapM_py_key_elem _ _ _ Hks), (mapM_py_key_elem _ _ _ Hks').
    split; intros (v & Hv & Hkey); exists v; (split; [|done]);
      by apply Hgroups.
  - exfalso. assert (Hsome : is_Some (mapM py_key
      (symbol_groups (panel_collection w) case_panels'))).
    { apply mapM_is_Some, Forall_forall. intros v Hv%Hgroups.
      assert (Hsome : is_Some (mapM py_key
        (symbol_groups (panel_collection w) case_panels)))
        by (by eexists).
      apply mapM_is_Some in Hsome. rewrite Forall_forall in Hsome.
      by apply Hsome. }
    rewrite Hks' in Hsome. by destruct Hsome.
  - exfalso. assert (Hsome : is_Some (mapM py_key
      (symbol_groups (panel_collection w) case_panels))).
    { apply mapM_is_Some, Forall_forall. intros v Hv%Hgroups.
      assert (Hsome : is_Some (mapM py_key
        (symbol_groups (panel_collection w) case_panels')))
        by (by eexists).
      apply mapM_is_Some in Hsome. rewrite Forall_forall in Hsome.
      by apply Hsome. }
    rewrite Hks in Hsome. by destruct Hsome.
  - split; [done|]. split; [done|]. intros e [= <-]. split; [done|].
    destruct (decide (Forall (λ v, is_Some (py_key v))
                (symbol_groups (panel_collection w) case_panels)))
      as [Hall|Hnot].
    + apply (mapM_is_Some_2 py_key) in Hall. rewrite Hks in Hall.
      by destruct Hall.
    + apply not_Forall_Exists, Exists_exists in Hnot as (v & Hv & Hkey);
        [|apply _].
      apply symbol_groups_elem in Hv as (i & doc & gene & ? & ? & ? & ->).
      unfold group_id in Hkey.
      destruct (gene !! "symbol") as [[| | | |symbols]|] eqn:Hsym;
        simpl in Hkey; try (exfalso; apply Hkey; by eexists).
      by exists i, doc, gene, symbols.
Qed.

Lemma clinical_symbols_depends_on_named_panels_sample :
  (clinical_symbols [2; 1; 2; 7]%positive Sample3.two_panels).1
  = (clinical_symbols [1; 2]%positive Sample3.two_panels).1.
Proof.
  apply (clinical_symbols_depends_on_named_panels
           [2; 1; 2; 7]%positive [1; 2]%positive Sample3.two_panels).
  intros i [doc Hdoc].
  unfold Sample3.two_panels in Hdoc. cbn [panel_collection] in Hdoc.
  assert (Hi : i = 1%positive ∨ i = 2%positive).
  { destruct (decide (i = 1%positive)) as [|H1]; [by left|].
    destruct (decide (i = 2%positive)) as [|H2]; [by right|].
    rewrite lookup_insert_ne, lookup_singleton_ne in Hdoc by done.
    done. }
  rewrite !elem_of_cons, !elem_of_nil.
  destruct Hi as [->| ->]; split; intros _; auto.
Defined.

(** ** Entries with another action *)


